(** * CleverSpa API client: reconciliation cache and command dispatcher

    A shallow embedding of [custom_components/clevererspa/clevererspa.py].

    - The client object ([CleverSpaApi]) holds the binding registry and the
      local state cache.  A method is an [Api] computation: it threads the
      client, returns or raises a Python exception, and appends the HTTP
      requests it issues to a log.  What a method changed before it raised
      stays changed.
    - The outside world is an [Env]: the answer of the cloud API to each
      request a method can make, and the reading of the clock.  A method
      asks for each device at most once, so the answers are a function of
      the device id; two calls get two environments.
    - [_bindings] is a Python dict: a list of pairs in insertion order.
    - A cached status is a value.  The source mutates the cached objects in
      place and hands them out inside the reports; a report here is the
      status at the moment [fetch_data] returns.
    - JSON numbers are integers and the clock is an exact rational.
    - Around the client: the update coordinator of [__init__.py], the
      entities of [entity.py], [climate.py] and [switch.py] as functions of
      the coordinator's report mapping, the migration of a stored entry and
      the first step of the config flow.  The request log holds the
      per-device requests; the registry request is answered by a
      parameter. *)

From Stdlib Require Import ZArith QArith Lqa Lia.
From stdpp Require Import base option list strings gmap.

Local Open Scope string_scope.
Local Open Scope Z_scope.
Local Set Warnings "-register-all".

(** ** Values *)

(** The JSON values that travel through the client untyped.  JSON numbers
    are integers here. *)
Inductive PyVal : Type :=
| VNone
| VBool (b : bool)
| VInt (z : Z)
| VStr (s : string)
| VDict (items : gmap string PyVal).

(** Python's [v == n] for an integer literal [n]: [True == 1] and
    [False == 0] hold, a string or [None] never equals a number. *)
Definition py_eq_int (v : PyVal) (n : Z) : bool :=
  match v with
  | VInt z => z =? n
  | VBool b => Z.b2z b =? n
  | _ => false
  end.

(** [_CONNECTIVITY_TIMEOUT]: how old the latest update can be before a spa
    is considered offline. *)
Definition _CONNECTIVITY_TIMEOUT : Z := 1000.

Inductive TemperatureUnit : Type := CELSIUS | FAHRENHEIT.

Record CleverSpaDevice : Type := {
  device_id : string;
  alias : string;
  product_name : string
}.

(** The dataclass [CleverSpaDeviceStatus].  The annotations of the source
    are not enforced at run time: [temp_now], [temp_set] and [filter_age]
    hold whatever value was stored.  [instance_attrs] holds the attributes
    assigned on an instance that are not dataclass fields ([wave_power],
    [locked]); a freshly constructed status has none. *)
Record CleverSpaDeviceStatus : Type := {
  timestamp : Z;
  temp_now : PyVal;
  temp_set : PyVal;
  temp_set_unit : TemperatureUnit;
  heat_power : bool;
  filter_power : bool;
  bubble_power : bool;
  filter_age : PyVal;
  errors : list Z;
  instance_attrs : gmap string PyVal
}.

(** Attribute assignment [status.<field> = v], one setter per attribute the
    source assigns. *)
Definition set_timestamp (v : Z) (st : CleverSpaDeviceStatus) : CleverSpaDeviceStatus :=
  {| timestamp := v; temp_now := temp_now st; temp_set := temp_set st;
     temp_set_unit := temp_set_unit st; heat_power := heat_power st;
     filter_power := filter_power st; bubble_power := bubble_power st;
     filter_age := filter_age st; errors := errors st;
     instance_attrs := instance_attrs st |}.

Definition set_temp_set (v : PyVal) (st : CleverSpaDeviceStatus) : CleverSpaDeviceStatus :=
  {| timestamp := timestamp st; temp_now := temp_now st; temp_set := v;
     temp_set_unit := temp_set_unit st; heat_power := heat_power st;
     filter_power := filter_power st; bubble_power := bubble_power st;
     filter_age := filter_age st; errors := errors st;
     instance_attrs := instance_attrs st |}.

Definition set_heat_power (v : bool) (st : CleverSpaDeviceStatus) : CleverSpaDeviceStatus :=
  {| timestamp := timestamp st; temp_now := temp_now st; temp_set := temp_set st;
     temp_set_unit := temp_set_unit st; heat_power := v;
     filter_power := filter_power st; bubble_power := bubble_power st;
     filter_age := filter_age st; errors := errors st;
     instance_attrs := instance_attrs st |}.

Definition set_filter_power (v : bool) (st : CleverSpaDeviceStatus) : CleverSpaDeviceStatus :=
  {| timestamp := timestamp st; temp_now := temp_now st; temp_set := temp_set st;
     temp_set_unit := temp_set_unit st; heat_power := heat_power st;
     filter_power := v; bubble_power := bubble_power st;
     filter_age := filter_age st; errors := errors st;
     instance_attrs := instance_attrs st |}.

(** Assignment to a name that is not a field: the dataclass has no
    [__slots__], so the instance gains (or rebinds) that attribute. *)
Definition set_instance_attr (name : string) (v : PyVal)
    (st : CleverSpaDeviceStatus) : CleverSpaDeviceStatus :=
  {| timestamp := timestamp st; temp_now := temp_now st; temp_set := temp_set st;
     temp_set_unit := temp_set_unit st; heat_power := heat_power st;
     filter_power := filter_power st; bubble_power := bubble_power st;
     filter_age := filter_age st; errors := errors st;
     instance_attrs := <[name := v]> (instance_attrs st) |}.

(** The clock: [time()] is a number of seconds, taken exactly as a
    rational; [int(...)] truncates towards zero. *)
Definition int (q : Q) : Z := Z.quot (Qnum q) (Z.pos (Qden q)).

(** [CleverSpaDeviceStatus.online]:
    [self.timestamp > (time() - _CONNECTIVITY_TIMEOUT)]. *)
Definition online (now : Q) (self : CleverSpaDeviceStatus) : bool :=
  negb (Qle_bool (inject_Z (timestamp self))
                 (now - inject_Z _CONNECTIVITY_TIMEOUT)%Q).

Record CleverSpaUserToken : Type := {
  user_id : PyVal;
  user_token : PyVal;
  expiry : PyVal
}.

Record CleverSpaDeviceReport : Type := {
  device : CleverSpaDevice;
  status : CleverSpaDeviceStatus
}.

(** ** Exceptions and HTTP *)

Inductive Exn : Type :=
| KeyError (key : string)
| TypeError (msg : string)
| JSONDecodeError
| TimeoutError
| ClientConnectionError
| ClientResponseError (code : Z) (message : string)
| AuthError (message : string).

Inductive Result (A : Type) : Type :=
| Ok (a : A)
| Err (e : Exn).
Arguments Ok {A} a.
Arguments Err {A} e.

Definition and_then {A B} (r : Result A) (k : A -> Result B) : Result B :=
  match r with
  | Ok a => k a
  | Err e => Err e
  end.

Declare Scope result_scope.
Delimit Scope result_scope with result.
Notation "'do' x <- m ; k" := (and_then m (fun x => k))
  (at level 10, x name, m at level 100, k at level 200) : result_scope.

(** What the client reads of an aiohttp [ClientResponse]: the status code,
    the reason phrase, and the body decoded as JSON ([None] when the body
    is not JSON, in which case [json()] raises). *)
Record ClientResponse (B : Type) : Type := {
  code : Z;
  reason : string;
  json : option B
}.
Arguments code {B} _.
Arguments reason {B} _.
Arguments json {B} _.

(** aiohttp: [ok] is [400 > self.status]. *)
Definition ok {B} (response : ClientResponse B) : bool := code response <? 400.

(** aiohttp: [ClientResponse.raise_for_status()] raises
    [ClientResponseError(status=self.status, message=self.reason)] when the
    response is not [ok]. *)
Definition response_raise_for_status {B} (response : ClientResponse B) : Result unit :=
  if ok response then Ok tt
  else Err (ClientResponseError (code response) (reason response)).

Definition response_json {B} (response : ClientResponse B) : Result B :=
  match json response with
  | Some v => Ok v
  | None => Err JSONDecodeError
  end.

(** The module-level [raise_for_status(response)]: the error-code mapping
    is commented out in the source, so after trying to decode the body
    (whether or not that raises) it falls through to the response's own
    [raise_for_status()]. *)
Definition raise_for_status {B} (response : ClientResponse B) : Result unit :=
  if ok response then Ok tt
  else
    match response_json response with
    | Err _ => response_raise_for_status response
    | Ok api_error => response_raise_for_status response
    end.

(** The body of [/app/devdata/{did}/latest], taken to have the shape the
    API documents: [{updated_at: int, attr: {name: value}}].  The
    attributes a body carries are not fixed. *)
Record LatestData : Type := {
  updated_at : Z;
  attr : gmap string PyVal
}.

(** A value used where the source expects a device id.  [set_heat] passes
    a cached status object to [set_filter], so both occur. *)
Inductive PyKey : Type :=
| KStr (s : string)
| KStatus (st : CleverSpaDeviceStatus).

(** The requests the client issues, by the value interpolated into the
    URL, and [asyncio.sleep]. *)
Inductive Event : Type :=
| EvGet (did : string)
| EvPost (target : PyKey) (attr_name : string) (value : Z)
| EvSleep (seconds : Z).

(** The answers of the outside world during one operation. *)
Record Env : Type := {
  session_get : string -> Result (ClientResponse LatestData);
  session_post : PyKey -> string -> Z -> Result (ClientResponse PyVal);
  time : Q
}.

(** ** The client object and its computations *)

Record CleverSpaApi : Type := {
  _bindings : option (list (string * CleverSpaDevice));
  _local_state_cache : gmap string CleverSpaDeviceStatus;
  requests : list Event
}.

Definition with_cache (c : gmap string CleverSpaDeviceStatus) (self : CleverSpaApi) : CleverSpaApi :=
  {| _bindings := _bindings self; _local_state_cache := c; requests := requests self |}.

Definition with_event (ev : Event) (self : CleverSpaApi) : CleverSpaApi :=
  {| _bindings := _bindings self; _local_state_cache := _local_state_cache self;
     requests := (requests self ++ [ev])%list |}.

(** A method body: it reads and mutates the client object and either
    returns or raises; mutations made before an exception stay. *)
Definition Api (A : Type) : Type := CleverSpaApi -> Result A * CleverSpaApi.

Definition ret {A} (a : A) : Api A := fun self => (Ok a, self).
Definition bind {A B} (m : Api A) (k : A -> Api B) : Api B :=
  fun self =>
    match m self with
    | (Ok a, self') => k a self'
    | (Err e, self') => (Err e, self')
    end.
Definition lift {A} (r : Result A) : Api A := fun self => (r, self).
Definition emit (ev : Event) : Api unit := fun self => (Ok tt, with_event ev self).

Declare Scope api_scope.
Delimit Scope api_scope with api.
Notation "'do' x <- m ; k" := (bind m (fun x => k))
  (at level 10, x name, m at level 100, k at level 200) : api_scope.
Local Open Scope api_scope.

(** [_do_get] on the devdata URL of [did]. *)
Definition _do_get (e : Env) (did : string) : Api LatestData :=
  do _ <- emit (EvGet did);
  do response <- lift (session_get e did);
  do _ <- lift (response_raise_for_status response);
  lift (response_json response).

(** [_do_post] on the control URL, with body [{"attrs": {name: value}}]. *)
Definition _do_post (e : Env) (target : PyKey) (name : string) (value : Z) : Api PyVal :=
  do _ <- emit (EvPost target name value);
  do response <- lift (session_post e target name value);
  do _ <- lift (raise_for_status response);
  lift (response_json response).

(** [d[key]] on a JSON object. *)
Definition getitem (d : gmap string PyVal) (key : string) : Result PyVal :=
  match d !! key with
  | Some v => Ok v
  | None => Err (KeyError key)
  end.

(** [v[key]] on a decoded JSON value: only an object has string keys. *)
Definition py_getitem (v : PyVal) (key : string) : Result PyVal :=
  match v with
  | VDict items => getitem items key
  | _ => Err (TypeError "not subscriptable by a string key")
  end.

(** The [CleverSpaDeviceStatus(...)] construction of [fetch_data]; the
    arguments are evaluated in order, so the first missing key raises. *)
Definition parse_status (latest_data : LatestData) : Result CleverSpaDeviceStatus :=
  let device_attrs := attr latest_data in
  (do current <- getitem device_attrs "Current_temperature";
   do setup <- getitem device_attrs "Temperature_setup";
   do heater <- getitem device_attrs "Heater";
   do filter <- getitem device_attrs "Filter";
   do bubble <- getitem device_attrs "Bubble";
   do time_filter <- getitem device_attrs "Time_filter";
   Ok {| timestamp := updated_at latest_data;
         temp_now := current;
         temp_set := setup;
         temp_set_unit := CELSIUS;
         heat_power := py_eq_int heater 1;
         filter_power := py_eq_int filter 1;
         bubble_power := py_eq_int bubble 1;
         filter_age := VBool (py_eq_int time_filter 0);
         errors := [];
         instance_attrs := ∅ |})%result.

(** [self._local_state_cache[key]]: a status object is unhashable (the
    dataclass defines [__eq__] and is not frozen), a missing id raises
    [KeyError]. *)
Definition cache_getitem (key : PyKey) : Api CleverSpaDeviceStatus :=
  fun self =>
    match key with
    | KStatus _ => (Err (TypeError "unhashable type: 'CleverSpaDeviceStatus'"), self)
    | KStr did =>
        match _local_state_cache self !! did with
        | Some st => (Ok st, self)
        | None => (Err (KeyError did), self)
        end
    end.

(** [self._local_state_cache[did] = st]. *)
Definition cache_setitem (did : string) (st : CleverSpaDeviceStatus) : Api unit :=
  fun self => (Ok tt, with_cache (<[did := st]> (_local_state_cache self)) self).

(** [self._local_state_cache[key].<attribute> = v]: the cached object is
    mutated in place. *)
Definition cache_setattr (key : PyKey)
    (assign : CleverSpaDeviceStatus -> CleverSpaDeviceStatus) : Api unit :=
  do st <- cache_getitem key;
  match key with
  | KStr did => cache_setitem did (assign st)
  | KStatus _ => ret tt
  end.

(** [local_update_timestamp]: 0, or the cached timestamp (a dataclass
    instance is always truthy). *)
Definition local_update_timestamp (self : CleverSpaApi) (did : string) : Z :=
  match _local_state_cache self !! did with
  | Some cached_state => timestamp cached_state
  | None => 0
  end.

(** One iteration of the [for did, device_info in self._bindings.items()]
    loop of [fetch_data]. *)
Definition fetch_device (e : Env) (did : string) (device_info : CleverSpaDevice)
    (results : gmap string CleverSpaDeviceReport) : Api (gmap string CleverSpaDeviceReport) :=
  do latest_data <- _do_get e did;
  fun self =>
    let api_update_timestamp := updated_at latest_data in
    (do _ <- (if local_update_timestamp self did <=? api_update_timestamp
              then do device_status <- lift (parse_status latest_data);
                   cache_setitem did device_status
              else ret tt);
     do cached <- cache_getitem (KStr did);
     ret (<[did := {| device := device_info; status := cached |}]> results)) self.

Fixpoint fetch_loop (e : Env) (items : list (string * CleverSpaDevice))
    (results : gmap string CleverSpaDeviceReport) : Api (gmap string CleverSpaDeviceReport) :=
  match items with
  | [] => ret results
  | (did, device_info) :: rest =>
      do results' <- fetch_device e did device_info results;
      fetch_loop e rest results'
  end.

(** [fetch_data]: an unset or empty registry gives an empty mapping. *)
Definition fetch_data (e : Env) : Api (gmap string CleverSpaDeviceReport) :=
  fun self =>
    match _bindings self with
    | None => ret ∅ self
    | Some [] => ret ∅ self
    | Some items => fetch_loop e items ∅ self
    end.

(** [asyncio.sleep(seconds)]. *)
Definition sleep (seconds : Z) : Api unit := emit (EvSleep seconds).

(** [set_filter]: the source writes [wave_power], which is not a field of
    the dataclass.  [device_id] is whatever the caller passes. *)
Definition set_filter (e : Env) (device_id : PyKey) (filtering : bool) : Api unit :=
  do _ <- _do_post e device_id "Filter" (if filtering then 1 else 0);
  do _ <- cache_setattr device_id (set_timestamp (int (time e)));
  do _ <- cache_setattr device_id (set_filter_power filtering);
  if negb filtering then
    do _ <- cache_setattr device_id (set_instance_attr "wave_power" (VBool false));
    cache_setattr device_id (set_heat_power false)
  else ret tt.

(** [set_heat]: [e] answers up to the sleep, [e'] after it.  The last line
    of the source is
    [await self.set_filter(self._local_state_cache[device_id], False)]. *)
Definition set_heat (e e' : Env) (device_id : string) (heat : bool) : Api unit :=
  do _ <- _do_post e (KStr device_id) "Heater" (if heat then 1 else 0);
  do _ <- cache_setattr (KStr device_id) (set_timestamp (int (time e)));
  do _ <- cache_setattr (KStr device_id) (set_heat_power heat);
  if heat then
    do _ <- cache_setattr (KStr device_id) (set_filter_power true);
    do _ <- fetch_data e;
    ret tt
  else
    do _ <- fetch_data e;
    do _ <- sleep 30;
    do cached <- cache_getitem (KStr device_id);
    set_filter e' (KStatus cached) false.

Definition set_locked (e : Env) (device_id : string) (locked : bool) : Api unit :=
  do _ <- _do_post e (KStr device_id) "locked" (if locked then 1 else 0);
  do _ <- cache_setattr (KStr device_id) (set_timestamp (int (time e)));
  do _ <- cache_setattr (KStr device_id) (set_instance_attr "locked" (VBool locked));
  do _ <- fetch_data e;
  ret tt.

Definition set_bubbles (e : Env) (device_id : string) (bubbles : bool) : Api unit :=
  do _ <- _do_post e (KStr device_id) "Bubble" (if bubbles then 1 else 0);
  do _ <- cache_setattr (KStr device_id) (set_timestamp (int (time e)));
  do _ <- cache_setattr (KStr device_id) (set_filter_power bubbles);
  do _ <- (if bubbles then cache_setattr (KStr device_id) (set_filter_power true)
           else ret tt);
  do _ <- fetch_data e;
  ret tt.

Definition set_target_temp (e : Env) (device_id : string) (target_temp : Z) : Api unit :=
  do _ <- _do_post e (KStr device_id) "Temperature_setup" target_temp;
  do _ <- cache_setattr (KStr device_id) (set_timestamp (int (time e)));
  do _ <- cache_setattr (KStr device_id) (set_temp_set (VInt target_temp));
  do _ <- fetch_data e;
  ret tt.

(** The two endpoints of the login exchange: the identity provider's
    [verifyPassword] and the profile store, read with the [localId] and
    [idToken] of the first answer. *)
Record AuthEnv : Type := {
  verify_password : string -> string -> Result (ClientResponse PyVal);
  profile_get : PyVal -> PyVal -> Result (ClientResponse PyVal)
}.

(** [CleverSpaApi.get_user_token] (a static method). *)
Definition get_user_token (session : AuthEnv) (username password : string)
    : Result CleverSpaUserToken :=
  (do user <- verify_password session username password;
   do _ <- raise_for_status user;
   do user_json <- response_json user;
   do local_id <- py_getitem user_json "localId";
   do id_token <- py_getitem user_json "idToken";
   do info <- profile_get session local_id id_token;
   do _ <- response_raise_for_status info;
   do info_json <- response_json info;
   do uid <- py_getitem info_json "uid";
   do token <- py_getitem info_json "token";
   do expire_at <- py_getitem info_json "expire_at";
   Ok {| user_id := uid; user_token := token; expiry := expire_at |})%result.

(** ** Reading the definitions back *)

(** What [_do_get] returns for [did], apart from the request it records. *)
Definition latest (e : Env) (did : string) : Result LatestData :=
  (do response <- session_get e did;
   do _ <- response_raise_for_status response;
   response_json response)%result.

(** What [_do_post] returns, apart from the request it records. *)
Definition posted (e : Env) (target : PyKey) (name : string) (value : Z) : Result PyVal :=
  (do response <- session_post e target name value;
   do _ <- raise_for_status response;
   response_json response)%result.

(** The entry of a device after one iteration of the loop of [fetch_data],
    from the answer to its request and its entry before; an iteration that
    raises leaves the entry as it was. *)
Definition reconciled (answer : Result LatestData)
    (cached : option CleverSpaDeviceStatus) : option CleverSpaDeviceStatus :=
  match answer with
  | Err _ => cached
  | Ok latest_data =>
      if from_option timestamp 0 cached <=? updated_at latest_data
      then match parse_status latest_data with
           | Ok st => Some st
           | Err _ => cached
           end
      else cached
  end.

(** The identity provider's message in an error body, as [login] reads
    it: [e["error"]["message"]]. *)
Definition error_message (body : PyVal) : Result PyVal :=
  (do error <- py_getitem body "error";
   py_getitem error "message")%result.

(** What a computation adds to the request log. *)
Definition emits {A} (m : Api A) (P : Event -> Prop) : Prop :=
  forall self, exists evs,
    requests (m self).2 = (requests self ++ evs)%list /\ Forall P evs.

(** The requests that are not a filter control request addressed to a
    device id. *)
Definition not_filter_control (ev : Event) : Prop :=
  match ev with
  | EvPost (KStr _) "Filter" _ => False
  | _ => True
  end.

(** ** A scenario: one spa, bound as "abc" *)

Definition spa : CleverSpaDevice :=
  {| device_id := "abc"; alias := "Spa"; product_name := "X1" |}.

Definition spa_attrs : gmap string PyVal :=
  <["Current_temperature" := VInt 30]>
  (<["Temperature_setup" := VInt 35]>
  (<["Heater" := VInt 1]>
  (<["Filter" := VInt 1]>
  (<["Bubble" := VInt 0]>
  (<["Time_filter" := VInt 0]> ∅))))).

Definition spa_data (t : Z) : LatestData :=
  {| updated_at := t; attr := spa_attrs |}.

Definition http_ok {B} (body : B) : ClientResponse B :=
  {| code := 200; reason := "OK"; json := Some body |}.

(** A server that answers every devdata request with [spa_data t] and
    accepts every control request, read at clock [now]. *)
Definition spa_env (t : Z) (now : Q) : Env :=
  {| session_get := fun _ => Ok (http_ok (spa_data t));
     session_post := fun _ _ _ => Ok (http_ok VNone);
     time := now |}.

Definition spa_status (t : Z) : CleverSpaDeviceStatus :=
  {| timestamp := t; temp_now := VInt 30; temp_set := VInt 35;
     temp_set_unit := CELSIUS; heat_power := true; filter_power := true;
     bubble_power := false; filter_age := VBool true; errors := [];
     instance_attrs := ∅ |}.

(** The same server with the target temperature still at 20. *)
Definition cold_data (t : Z) : LatestData :=
  {| updated_at := t; attr := <["Temperature_setup" := VInt 20]> spa_attrs |}.

Definition cold_env (t : Z) (now : Q) : Env :=
  {| session_get := fun _ => Ok (http_ok (cold_data t));
     session_post := fun _ _ _ => Ok (http_ok VNone);
     time := now |}.

Definition cold_status (t : Z) : CleverSpaDeviceStatus :=
  set_temp_set (VInt 20) (spa_status t).

(** A server that knows no device under the text of a status object. *)
Definition strict_env (t : Z) (now : Q) : Env :=
  {| session_get := fun _ => Ok (http_ok (spa_data t));
     session_post := fun target _ _ =>
       match target with
       | KStr _ => Ok (http_ok VNone)
       | KStatus _ => Ok {| code := 404; reason := "Not Found"; json := None |}
       end;
     time := now |}.

(** The same spa with the bubbles running. *)
Definition spa_bubbling (t : Z) : CleverSpaDeviceStatus :=
  {| timestamp := t; temp_now := VInt 30; temp_set := VInt 35;
     temp_set_unit := CELSIUS; heat_power := true; filter_power := true;
     bubble_power := true; filter_age := VBool true; errors := [];
     instance_attrs := ∅ |}.

(** An identity provider that rejects the password. *)
Definition rejected : ClientResponse PyVal :=
  {| code := 400; reason := "Bad Request";
     json := Some (VDict (<["error" :=
               VDict (<["message" := VStr "INVALID_PASSWORD"]> ∅)]> ∅)) |}.

Definition rejecting : AuthEnv :=
  {| verify_password := fun _ _ => Ok rejected;
     profile_get := fun _ _ => Err ClientConnectionError |}.

Definition fresh_api : CleverSpaApi :=
  {| _bindings := Some [("abc", spa)]; _local_state_cache := ∅; requests := [] |}.

Definition spa_api (st : CleverSpaDeviceStatus) : CleverSpaApi :=
  {| _bindings := Some [("abc", spa)];
     _local_state_cache := <["abc" := st]> ∅; requests := [] |}.

(** ** The binding registry *)

(** [CleverSpaApi.__init__]: no registry yet and an empty cache. *)
Definition new_api : CleverSpaApi :=
  {| _bindings := None; _local_state_cache := ∅; requests := [] |}.

Definition with_bindings (b : option (list (string * CleverSpaDevice)))
    (self : CleverSpaApi) : CleverSpaApi :=
  {| _bindings := b; _local_state_cache := _local_state_cache self;
     requests := requests self |}.

(** The body of [/app/bindings], taken to have the shape the API
    documents: [{devices: [{did, dev_alias, product_name, ...}, ...]}] with
    string values.  The keys an element carries are not fixed. *)
Record BindingsData : Type := {
  devices : list (gmap string string)
}.

(** [raw[key]] on an element of [devices]. *)
Definition raw_getitem (raw : gmap string string) (key : string) : Result string :=
  match raw !! key with
  | Some v => Ok v
  | None => Err (KeyError key)
  end.

(** [lambda raw: CleverSpaDevice(raw["did"], raw["dev_alias"],
    raw["product_name"])]. *)
Definition parse_device (raw : gmap string string) : Result CleverSpaDevice :=
  (do did <- raw_getitem raw "did";
   do dev_alias <- raw_getitem raw "dev_alias";
   do name <- raw_getitem raw "product_name";
   Ok {| device_id := did; alias := dev_alias; product_name := name |})%result.

(** [list(map(..., api_data["devices"]))]: the first element that lacks a
    key raises. *)
Fixpoint parse_devices (raws : list (gmap string string)) : Result (list CleverSpaDevice) :=
  match raws with
  | [] => Ok []
  | raw :: rest =>
      (do device_info <- parse_device raw;
       do others <- parse_devices rest;
       Ok (device_info :: others))%result
  end.

(** [d[key] = v] on a Python dict: a key already present keeps its place
    and gets the new value, a new key goes last. *)
Fixpoint dict_set {V} (key : string) (v : V) (items : list (string * V))
    : list (string * V) :=
  match items with
  | [] => [(key, v)]
  | (k, v') :: rest =>
      if decide (k = key) then (k, v) :: rest
      else (k, v') :: dict_set key v rest
  end.

(** [{device.device_id: device for device in ...}]. *)
Definition bindings_dict (found : list CleverSpaDevice) : list (string * CleverSpaDevice) :=
  fold_left (fun d device_info => dict_set (device_id device_info) device_info d) found [].

(** [_get_bindings]: [_do_get] on the bindings URL, answered by [answer];
    the request log holds the per-device requests only. *)
Definition _get_bindings (answer : Result (ClientResponse BindingsData))
    : Api (list CleverSpaDevice) :=
  do response <- lift answer;
  do _ <- lift (response_raise_for_status response);
  do api_data <- lift (response_json response);
  lift (parse_devices (devices api_data)).

(** [refresh_bindings]: the registry is assigned once [_get_bindings] has
    returned. *)
Definition refresh_bindings (answer : Result (ClientResponse BindingsData)) : Api unit :=
  do found <- _get_bindings answer;
  fun self => (Ok tt, with_bindings (Some (bindings_dict found)) self).

(** ** The update coordinator ([__init__.py]) *)

(** What [_async_update_data] gives the scheduler: the report mapping, or
    [UpdateFailed] raised from the exception that ended the cycle. *)
Inductive UpdateResult : Type :=
| Updated (reports : gmap string CleverSpaDeviceReport)
| UpdateFailed (err : Exn).

(** [CleverSpaUpdateCoordinator._async_update_data]: refresh the bindings,
    then fetch, any exception wrapped. *)
Definition _async_update_data (answer : Result (ClientResponse BindingsData))
    (e : Env) (api : CleverSpaApi) : UpdateResult * CleverSpaApi :=
  match (do _ <- refresh_bindings answer; fetch_data e) api with
  | (Ok reports, api') => (Updated reports, api')
  | (Err err, api') => (UpdateFailed err, api')
  end.

(** A stored config entry: its schema version and its data. *)
Record ConfigEntry : Type := {
  version : Z;
  entry_data : gmap string PyVal
}.

(** [CONF_API_ROOT] and [CONF_API_ROOT_EU] of [const.py]. *)
Definition CONF_API_ROOT : string := "apiroot".
Definition CONF_API_ROOT_EU : string := "https://api.gizwits.com".

(** [async_migrate_entry]: the answer and the entry as it is left. *)
Definition async_migrate_entry (entry : ConfigEntry) : bool * ConfigEntry :=
  if version entry =? 1 then
    (true, {| version := 2;
              entry_data := <[CONF_API_ROOT := VStr CONF_API_ROOT_EU]> (entry_data entry) |})
  else (false, entry).

(** ** Entities ([entity.py], [climate.py], [switch.py]) *)

(** [CleverSpaEntity.device_status], over [coordinator.data]: a report is
    always truthy. *)
Definition device_status (reports : gmap string CleverSpaDeviceReport)
    (device_id : string) : option CleverSpaDeviceStatus :=
  match reports !! device_id with
  | Some device_report => Some (status device_report)
  | None => None
  end.

(** [CleverSpaEntity.available]. *)
Definition available (now : Q) (reports : gmap string CleverSpaDeviceReport)
    (device_id : string) : bool :=
  match device_status reports device_id with
  | None => false
  | Some st => online now st
  end.

Inductive HVACMode : Type := HVAC_OFF | HVAC_HEAT.
Inductive HVACAction : Type := HEATING | IDLE.
Inductive UnitOfTemperature : Type := TEMP_CELSIUS | TEMP_FAHRENHEIT.

(** [CleverSpaThermostat.hvac_mode]. *)
Definition hvac_mode (reports : gmap string CleverSpaDeviceReport)
    (device_id : string) : option HVACMode :=
  match device_status reports device_id with
  | None => None
  | Some st => Some (if heat_power st then HVAC_HEAT else HVAC_OFF)
  end.

(** The number a value counts as in a comparison: [True] is 1, [False] 0. *)
Definition py_number (v : PyVal) : option Z :=
  match v with
  | VInt z => Some z
  | VBool b => Some (Z.b2z b)
  | _ => None
  end.

(** Python's [a >= b]: numbers compare by value, strings
    lexicographically, anything else raises [TypeError]. *)
Definition py_ge (a b : PyVal) : Result bool :=
  match py_number a, py_number b with
  | Some x, Some y => Ok (y <=? x)
  | _, _ =>
      match a, b with
      | VStr s, VStr t => Ok (String.leb t s)
      | _, _ => Err (TypeError "'>=' not supported")
      end
  end.

(** [CleverSpaThermostat.hvac_action]. *)
Definition hvac_action (reports : gmap string CleverSpaDeviceReport)
    (device_id : string) : Result (option HVACAction) :=
  match device_status reports device_id with
  | None => Ok None
  | Some st =>
      let heat_on := heat_power st in
      (do target_reached <- py_ge (temp_now st) (temp_set st);
       Ok (Some (if heat_on && negb target_reached then HEATING else IDLE)))%result
  end.

(** [CleverSpaThermostat.temperature_unit]. *)
Definition temperature_unit (reports : gmap string CleverSpaDeviceReport)
    (device_id : string) : UnitOfTemperature :=
  match device_status reports device_id with
  | None => TEMP_CELSIUS
  | Some st =>
      match temp_set_unit st with
      | CELSIUS => TEMP_CELSIUS
      | FAHRENHEIT => TEMP_FAHRENHEIT
      end
  end.

(** [CleverSpaSwitchEntityDescription]: what a switch reads and what it
    calls. *)
Record CleverSpaSwitchEntityDescription : Type := {
  key : string;
  value_fn : CleverSpaDeviceStatus -> bool;
  turn_on_fn : Env -> string -> Api unit;
  turn_off_fn : Env -> string -> Api unit
}.

Definition filter_switch : CleverSpaSwitchEntityDescription :=
  {| key := "filter_power";
     value_fn := fun s => filter_power s;
     turn_on_fn := fun e device_id => set_filter e (KStr device_id) true;
     turn_off_fn := fun e device_id => set_filter e (KStr device_id) false |}.

Definition bubble_switch : CleverSpaSwitchEntityDescription :=
  {| key := "bubble_power";
     value_fn := fun s => bubble_power s;
     turn_on_fn := fun e device_id => set_bubbles e device_id true;
     turn_off_fn := fun e device_id => set_bubbles e device_id false |}.

Definition _SENSOR_TYPES : list CleverSpaSwitchEntityDescription :=
  [filter_switch; bubble_switch].

(** [CleverSpaSwitch.is_on]. *)
Definition is_on (reports : gmap string CleverSpaDeviceReport) (device_id : string)
    (entity_description : CleverSpaSwitchEntityDescription) : option bool :=
  match device_status reports device_id with
  | None => None
  | Some st => Some (value_fn entity_description st)
  end.

(** ** The config flow ([config_flow.py]) *)

(** The form as [_STEP_USER_DATA_SCHEMA] validates it: three strings. *)
Record UserInput : Type := {
  input_username : string;
  input_password : string;
  input_apiroot : string
}.

(** What [validate_input] returns. *)
Record ValidatedInput : Type := {
  title : string;
  info_api_root : string;
  info_user_token : PyVal;
  info_user_token_expiry : PyVal
}.

(** [validate_input]: log in with the form's credentials. *)
Definition validate_input (session : AuthEnv) (data : UserInput) : Result ValidatedInput :=
  let username := input_username data in
  let api_root := "https://api.gizwits.com" in
  (do token <- get_user_token session username (input_password data);
   Ok {| title := username;
         info_api_root := api_root;
         info_user_token := user_token token;
         info_user_token_expiry := expiry token |})%result.

(** The two ways a step of the flow ends. *)
Inductive FlowResult : Type :=
| ShowForm (form_errors : option (gmap string string))
| CreateEntry (entry_title : string) (data : UserInput).

(** [CleverSpaConfigFlow.async_step_user].  Nothing in the source raises
    [CleverSpaUserDoesNotExistException] or
    [CleverSpaIncorrectPasswordException], so of the [except] clauses the
    ones for [ClientConnectionError] and for [Exception] remain. *)
Definition async_step_user (session : AuthEnv) (user_input : option UserInput) : FlowResult :=
  match user_input with
  | None => ShowForm None
  | Some data =>
      match validate_input session data with
      | Ok info => CreateEntry (title info) data
      | Err ClientConnectionError =>
          ShowForm (Some (<["base" := "cannot_connect"]> ∅))
      | Err _ =>
          ShowForm (Some (<["base" := "unknown_connection_error"]> ∅))
      end
  end.

(** ** Histories *)

(** The control commands, as the entities issue them for a device id. *)
Inductive Command : Type :=
| Heat (heat : bool)
| Filter (filtering : bool)
| Locked (locked : bool)
| Bubbles (bubbles : bool)
| TargetTemp (target_temp : Z).

(** The attribute and value a command posts. *)
Definition control_attr (c : Command) : string * Z :=
  match c with
  | Heat heat => ("Heater", if heat then 1 else 0)
  | Filter filtering => ("Filter", if filtering then 1 else 0)
  | Locked locked => ("locked", if locked then 1 else 0)
  | Bubbles bubbles => ("Bubble", if bubbles then 1 else 0)
  | TargetTemp target_temp => ("Temperature_setup", target_temp)
  end.

Definition dispatch (e e' : Env) (device_id : string) (c : Command) : Api unit :=
  match c with
  | Heat heat => set_heat e e' device_id heat
  | Filter filtering => set_filter e (KStr device_id) filtering
  | Locked locked => set_locked e device_id locked
  | Bubbles bubbles => set_bubbles e device_id bubbles
  | TargetTemp target_temp => set_target_temp e device_id target_temp
  end.

(** One call on the client. *)
Inductive Call : Type :=
| Refresh (answer : Result (ClientResponse BindingsData))
| Fetch (e : Env)
| Control (e e' : Env) (device_id : string) (c : Command).

Definition perform (call : Call) : Api unit :=
  match call with
  | Refresh answer => refresh_bindings answer
  | Fetch e => do _ <- fetch_data e; ret tt
  | Control e e' device_id c => dispatch e e' device_id c
  end.

(** The client after a sequence of calls, each returning or raising. *)
Fixpoint run (calls : list Call) (api : CleverSpaApi) : CleverSpaApi :=
  match calls with
  | [] => api
  | call :: rest => run rest (perform call api).2
  end.

(** What [_get_bindings] returns. *)
Definition listed (answer : Result (ClientResponse BindingsData))
    : Result (list CleverSpaDevice) :=
  (do response <- answer;
   do _ <- response_raise_for_status response;
   do api_data <- response_json response;
   parse_devices (devices api_data))%result.

(** The last of the listed devices that carries a device id. *)
Definition last_listed (found : list CleverSpaDevice) (did : string)
    : option CleverSpaDevice :=
  last (filter (fun device_info => device_id device_info = did) found).

(** A status as the server can have produced it. *)
Definition from_server (st : CleverSpaDeviceStatus) : Prop :=
  temp_set_unit st = CELSIUS /\ errors st = [].

(** A registry as a dict of devices by their ids. *)
Definition registry_ok (self : CleverSpaApi) : Prop :=
  forall items, _bindings self = Some items ->
    NoDup items.*1 /\
    forall did device_info, (did, device_info) ∈ items -> device_id device_info = did.

(** A relation between the client before and after a computation. *)
Definition steps (R : relation CleverSpaApi) {A} (m : Api A) : Prop :=
  forall self, R self (m self).2.

(** Every cached status satisfies [P]. *)
Definition cache_all (P : CleverSpaDeviceStatus -> Prop) (self : CleverSpaApi) : Prop :=
  forall did st, _local_state_cache self !! did = Some st -> P st.

(** No entry of the cache is dropped. *)
Definition entries_kept : relation CleverSpaApi :=
  fun self self' => forall did,
    is_Some (_local_state_cache self !! did) ->
    is_Some (_local_state_cache self' !! did).

(** No entry of the cache moves back in time. *)
Definition timestamps_grow : relation CleverSpaApi :=
  fun self self' => forall did st,
    _local_state_cache self !! did = Some st ->
    exists st', _local_state_cache self' !! did = Some st' /\
                timestamp st <= timestamp st'.

(** The registry is left as it is. *)
Definition same_bindings : relation CleverSpaApi :=
  fun self self' => _bindings self' = _bindings self.

(** Every cached status keeps satisfying [P]. *)
Definition keeps (P : CleverSpaDeviceStatus -> Prop) : relation CleverSpaApi :=
  fun self self' => cache_all P self -> cache_all P self'.

(** A server with two spas, the second listed twice. *)
Definition raw_spa (did name : string) : gmap string string :=
  <["did" := did]> (<["dev_alias" := name]> (<["product_name" := "X1"]> ∅)).

Definition two_spas : Result (ClientResponse BindingsData) :=
  Ok (http_ok {| devices := [raw_spa "abc" "Spa"; raw_spa "xyz" "Old"; raw_spa "xyz" "New"] |}).

Definition one_spa : Result (ClientResponse BindingsData) :=
  Ok (http_ok {| devices := [raw_spa "abc" "Spa"] |}).

(** An account listing with an element that has no name. *)
Definition broken_listing : Result (ClientResponse BindingsData) :=
  Ok (http_ok {| devices := [raw_spa "abc" "Spa"; <["did" := "xyz"]> ∅] |}).

(** A client that still holds a device the account no longer lists. *)
Definition old_api : CleverSpaApi :=
  {| _bindings := Some [("old", spa)];
     _local_state_cache := <["old" := spa_status 50]> ∅; requests := [] |}.

(** An identity provider and a profile store that accept the login. *)
Definition identity_body : PyVal :=
  VDict (<["localId" := VStr "local-1"]> (<["idToken" := VStr "id-1"]> ∅)).

Definition profile_body : PyVal :=
  VDict (<["uid" := VStr "u-1"]>
        (<["token" := VStr "t-1"]>
        (<["expire_at" := VInt 1700000000]> ∅))).

Definition accepting : AuthEnv :=
  {| verify_password := fun _ _ => Ok (http_ok identity_body);
     profile_get := fun _ _ => Ok (http_ok profile_body) |}.

(** The same identity provider with a profile store that denies access. *)
Definition profile_denying : AuthEnv :=
  {| verify_password := fun _ _ => Ok (http_ok identity_body);
     profile_get := fun _ _ =>
       Ok {| code := 401; reason := "Unauthorized"; json := None |} |}.

(** The spa heating up to its target. *)
Definition warming : CleverSpaDeviceStatus :=
  {| timestamp := 150; temp_now := VInt 30; temp_set := VInt 35;
     temp_set_unit := CELSIUS; heat_power := true; filter_power := true;
     bubble_power := false; filter_age := VBool true; errors := [];
     instance_attrs := ∅ |}.

(** A config entry stored by the first schema version. *)
Definition stored_v1 : ConfigEntry :=
  {| version := 1;
     entry_data := <["username" := VStr "user"]> (<["password" := VStr "secret"]> ∅) |}.

(** What the user types into the form. *)
Definition typed : UserInput :=
  {| input_username := "user"; input_password := "secret";
     input_apiroot := "https://api.gizwits.com" |}.

(** The spa with everything switched off. *)
Definition idle_status : CleverSpaDeviceStatus :=
  {| timestamp := 150; temp_now := VInt 30; temp_set := VInt 35;
     temp_set_unit := CELSIUS; heat_power := false; filter_power := false;
     bubble_power := false; filter_age := VBool true; errors := [];
     instance_attrs := ∅ |}.

(** A server that refuses every control request. *)
Definition refusing_env (t : Z) (now : Q) : Env :=
  {| session_get := fun _ => Ok (http_ok (spa_data t));
     session_post := fun _ _ _ =>
       Ok {| code := 403; reason := "Forbidden"; json := None |};
     time := now |}.

(** A server that has lost device "abc". *)
Definition failing_env (now : Q) : Env :=
  {| session_get := fun did =>
       if decide (did = "abc")
       then Ok {| code := 500; reason := "Internal Server Error"; json := None |}
       else Ok (http_ok (spa_data 100));
     session_post := fun _ _ _ => Ok (http_ok VNone);
     time := now |}.


Example parse_status_spa : parse_status (spa_data 100) = Ok (spa_status 100).
Proof. reflexivity. Qed.

(** The end-to-end scenario: one bound device, empty cache, a first answer
    at timestamp 100. *)
Example fetch_data_first :
  fetch_data (spa_env 100 200) fresh_api
  = (Ok (<["abc" := {| device := spa; status := spa_status 100 |}]> ∅),
     {| _bindings := Some [("abc", spa)];
        _local_state_cache := <["abc" := spa_status 100]> ∅;
        requests := [EvGet "abc"] |}).
Proof. reflexivity. Qed.

(** With no cached entry and a negative server timestamp the update is
    ignored and the lookup for the report raises. *)
Example fetch_data_stale_without_cache :
  fst (fetch_data (spa_env (-1) 200) fresh_api) = Err (KeyError "abc").
Proof. reflexivity. Qed.

Example fetch_data_no_bindings e :
  fetch_data e {| _bindings := None; _local_state_cache := ∅; requests := [] |}
  = (Ok ∅, {| _bindings := None; _local_state_cache := ∅; requests := [] |}).
Proof. reflexivity. Qed.

(** ** The monad *)

#[local] Arguments parse_status : simpl never.
#[local] Arguments local_update_timestamp : simpl never.

Lemma bind_ok {A B} (m : Api A) (k : A -> Api B) self a self1 :
  m self = (Ok a, self1) -> bind m k self = k a self1.
Proof. intros H. unfold bind. now rewrite H. Qed.

Lemma bind_err {A B} (m : Api A) (k : A -> Api B) self x self1 :
  m self = (Err x, self1) -> bind m k self = (Err x, self1).
Proof. intros H. unfold bind. now rewrite H. Qed.

Lemma bind_ok_inv {A B} (m : Api A) (k : A -> Api B) self b self2 :
  bind m k self = (Ok b, self2) ->
  exists a self1, m self = (Ok a, self1) /\ k a self1 = (Ok b, self2).
Proof.
  unfold bind. destruct (m self) as [[a|x] self1]; intros H.
  - now exists a, self1.
  - discriminate.
Qed.

Lemma _do_get_eq e did self :
  _do_get e did self = (latest e did, with_event (EvGet did) self).
Proof.
  unfold _do_get, latest, bind, emit, lift, and_then.
  destruct (session_get e did) as [response|x]; [|reflexivity].
  destruct (response_raise_for_status response); [|reflexivity].
  destruct (response_json response); reflexivity.
Qed.

Lemma _do_post_eq e target name value self :
  _do_post e target name value self
  = (posted e target name value, with_event (EvPost target name value) self).
Proof.
  unfold _do_post, posted, bind, emit, lift, and_then.
  destruct (session_post e target name value) as [response|x]; [|reflexivity].
  destruct (raise_for_status response); [|reflexivity].
  destruct (response_json response); reflexivity.
Qed.

Lemma cache_setattr_eq did assign self st :
  _local_state_cache self !! did = Some st ->
  cache_setattr (KStr did) assign self
  = (Ok tt, with_cache (<[did := assign st]> (_local_state_cache self)) self).
Proof.
  intros H. unfold cache_setattr, bind, cache_getitem, cache_setitem.
  now rewrite H.
Qed.

Lemma cache_setattr_missing did assign self :
  _local_state_cache self !! did = None ->
  cache_setattr (KStr did) assign self = (Err (KeyError did), self).
Proof.
  intros H. unfold cache_setattr, bind, cache_getitem. now rewrite H.
Qed.

Lemma cache_setattr_unhashable st assign self :
  cache_setattr (KStatus st) assign self
  = (Err (TypeError "unhashable type: 'CleverSpaDeviceStatus'"), self).
Proof. reflexivity. Qed.

(** ** One iteration of the loop *)

Section Loop.

Context (e : Env).

Lemma parse_status_timestamp latest_data st :
  parse_status latest_data = Ok st -> timestamp st = updated_at latest_data.
Proof.
  unfold parse_status, and_then.
  repeat (match goal with |- context [getitem ?d ?k] => destruct (getitem d k) end;
          [|discriminate]).
  intros [= <-]. reflexivity.
Qed.

Lemma fetch_device_eq did device_info results self :
  fetch_device e did device_info results self
  = let self0 := with_event (EvGet did) self in
    match latest e did with
    | Err x => (Err x, self0)
    | Ok latest_data =>
        if local_update_timestamp self did <=? updated_at latest_data
        then match parse_status latest_data with
             | Err x => (Err x, self0)
             | Ok st =>
                 (Ok (<[did := {| device := device_info; status := st |}]> results),
                  with_cache (<[did := st]> (_local_state_cache self)) self0)
             end
        else match _local_state_cache self !! did with
             | Some st =>
                 (Ok (<[did := {| device := device_info; status := st |}]> results), self0)
             | None => (Err (KeyError did), self0)
             end
    end.
Proof.
  unfold fetch_device. unfold bind at 1. rewrite _do_get_eq.
  destruct (latest e did) as [latest_data|x]; [|reflexivity].
  cbn zeta. change (local_update_timestamp (with_event (EvGet did) self) did)
    with (local_update_timestamp self did).
  destruct (local_update_timestamp self did <=? updated_at latest_data).
  - unfold bind, lift, cache_setitem, cache_getitem, ret.
    destruct (parse_status latest_data) as [st|x]; [|reflexivity].
    cbn. now rewrite lookup_insert_eq.
  - unfold bind, ret, cache_getitem. cbn.
    destruct (_local_state_cache self !! did); reflexivity.
Qed.

Lemma local_update_timestamp_eq self did :
  local_update_timestamp self did
  = from_option timestamp 0 (_local_state_cache self !! did).
Proof. unfold local_update_timestamp. now destruct (_ !! _). Qed.

Lemma reconciled_idem answer cached :
  reconciled answer (reconciled answer cached) = reconciled answer cached.
Proof.
  destruct answer as [latest_data|x]; [|reflexivity]. cbn.
  destruct (from_option timestamp 0 cached <=? updated_at latest_data) eqn:Hle.
  - destruct (parse_status latest_data) as [st|y] eqn:Hp.
    + now destruct (from_option timestamp 0 (Some st) <=? _).
    + now rewrite Hle.
  - now rewrite Hle.
Qed.

(** A stale answer, or none, leaves the entry alone. *)
Lemma reconciled_stale answer st :
  (forall latest_data, answer = Ok latest_data -> updated_at latest_data < timestamp st) ->
  reconciled answer (Some st) = Some st.
Proof.
  intros H. destruct answer as [latest_data|x]; [|reflexivity]. cbn.
  specialize (H _ eq_refl).
  destruct (timestamp st <=? updated_at latest_data) eqn:Hle; [|reflexivity].
  apply Z.leb_le in Hle. lia.
Qed.

Lemma fetch_device_bindings did device_info results self :
  _bindings (fetch_device e did device_info results self).2 = _bindings self.
Proof.
  rewrite fetch_device_eq. cbn zeta.
  repeat (match goal with |- context [match ?x with _ => _ end] => destruct x end);
    reflexivity.
Qed.

Lemma fetch_device_cache did device_info results self d :
  _local_state_cache (fetch_device e did device_info results self).2 !! d
  = if decide (d = did)
    then reconciled (latest e did) (_local_state_cache self !! did)
    else _local_state_cache self !! d.
Proof.
  rewrite fetch_device_eq, local_update_timestamp_eq. cbn zeta.
  unfold reconciled.
  destruct (latest e did) as [latest_data|x]; cbn.
  - destruct (_ <=? _).
    + destruct (parse_status latest_data) as [st|x]; cbn.
      * rewrite lookup_insert. repeat case_decide; congruence.
      * case_decide; congruence.
    + destruct (_local_state_cache self !! did) eqn:Hc; cbn;
        case_decide; congruence.
  - case_decide; congruence.
Qed.

(** A successful iteration reports the status it leaves in the cache. *)
Lemma fetch_device_ok did device_info results self results1 self1 :
  fetch_device e did device_info results self = (Ok results1, self1) ->
  exists latest_data st,
    latest e did = Ok latest_data /\
    _local_state_cache self1 !! did = Some st /\
    results1 = <[did := {| device := device_info; status := st |}]> results /\
    ((local_update_timestamp self did <=? updated_at latest_data) = true ->
     parse_status latest_data = Ok st) /\
    ((local_update_timestamp self did <=? updated_at latest_data) = false ->
     _local_state_cache self !! did = Some st).
Proof.
  rewrite fetch_device_eq. cbn zeta.
  destruct (latest e did) as [latest_data|x]; [|discriminate].
  destruct (_ <=? _) eqn:Hle.
  - destruct (parse_status latest_data) as [st|x] eqn:Hp; [|discriminate].
    intros [= <- <-]. exists latest_data, st. cbn.
    rewrite lookup_insert_eq, Hle. repeat split; congruence.
  - destruct (_local_state_cache self !! did) as [st|] eqn:Hc; [|discriminate].
    intros [= <- <-]. exists latest_data, st. cbn.
    rewrite Hle. repeat split; congruence.
Qed.

(** ** The whole loop *)

Lemma fetch_loop_bindings items : forall results self,
  _bindings (fetch_loop e items results self).2 = _bindings self.
Proof.
  induction items as [|[did device_info] rest IH]; intros results self; [reflexivity|].
  cbn [fetch_loop]. unfold bind.
  destruct (fetch_device e did device_info results self) as [[results1|x] self1] eqn:Hd.
  - rewrite IH. now rewrite <- (fetch_device_bindings did device_info results self), Hd.
  - now rewrite <- (fetch_device_bindings did device_info results self), Hd.
Qed.

(** A device that is not bound keeps its entry and gets no report. *)
Lemma fetch_loop_not_bound items d : forall results self,
  d ∉ items.*1 ->
  _local_state_cache (fetch_loop e items results self).2 !! d
  = _local_state_cache self !! d.
Proof.
  induction items as [|[did device_info] rest IH]; intros results self Hd; [reflexivity|].
  cbn in Hd. apply not_elem_of_cons in Hd as [Hne Hd].
  cbn [fetch_loop]. unfold bind.
  pose proof (fetch_device_cache did device_info results self d) as Hc.
  rewrite decide_False in Hc by done.
  destruct (fetch_device e did device_info results self) as [[results1|x] self1].
  - now rewrite IH.
  - exact Hc.
Qed.

Lemma fetch_loop_results_not_bound items d : forall results self results' self',
  d ∉ items.*1 ->
  fetch_loop e items results self = (Ok results', self') ->
  results' !! d = results !! d.
Proof.
  induction items as [|[did device_info] rest IH]; intros results self results' self' Hd.
  - now intros [= <- <-].
  - cbn in Hd. apply not_elem_of_cons in Hd as [Hne Hd].
    cbn [fetch_loop]. intros (results1 & self1 & H1 & H2)%bind_ok_inv.
    rewrite (IH _ _ _ _ Hd H2).
    apply fetch_device_ok in H1 as (? & st & _ & _ & -> & _).
    now rewrite lookup_insert_ne.
Qed.

(** Whatever happens, an entry is either left alone or reconciled with the
    answer to its device's request. *)
Lemma fetch_loop_cache items d : forall results self,
  _local_state_cache (fetch_loop e items results self).2 !! d
  = _local_state_cache self !! d \/
  _local_state_cache (fetch_loop e items results self).2 !! d
  = reconciled (latest e d) (_local_state_cache self !! d).
Proof.
  induction items as [|[did device_info] rest IH]; intros results self; [now left|].
  cbn [fetch_loop]. unfold bind.
  pose proof (fetch_device_cache did device_info results self d) as Hc.
  destruct (fetch_device e did device_info results self) as [[results1|x] self1];
    cbn [snd] in Hc.
  - destruct (IH results1 self1) as [H|H]; rewrite H, Hc;
      case_decide; subst; rewrite ?reconciled_idem; auto.
  - cbn [snd]. rewrite Hc. case_decide; subst; auto.
Qed.

(** When the loop completes, every bound device was reconciled: a fresh
    answer was parsed into the cache, a stale one left the entry, and the
    report carries the entry. *)
Lemma fetch_loop_bound items d : forall results self results' self',
  d ∈ items.*1 ->
  fetch_loop e items results self = (Ok results', self') ->
  exists latest_data st,
    latest e d = Ok latest_data /\
    _local_state_cache self' !! d = Some st /\
    status <$> results' !! d = Some st /\
    (local_update_timestamp self d <= updated_at latest_data ->
     parse_status latest_data = Ok st) /\
    (updated_at latest_data < local_update_timestamp self d ->
     _local_state_cache self !! d = Some st).
Proof.
  induction items as [|[did device_info] rest IH];
    intros results self results' self' Hd; [now apply elem_of_nil in Hd|].
  cbn [fetch_loop]. intros (results1 & self1 & H1 & H2)%bind_ok_inv.
  pose proof (fetch_device_cache did device_info results self d) as Hc.
  rewrite H1 in Hc. cbn [snd] in Hc.
  apply fetch_device_ok in H1 as (ld1 & st1 & Hl1 & Hs1 & -> & Hacc & Hstale).
  destruct (decide (d ∈ rest.*1)) as [Hin|Hnin].
  - destruct (IH _ _ _ _ Hin H2) as (ld & st & Hl & Hs & Hr & Ha & Hb).
    exists ld, st. split; [assumption|]. split; [assumption|]. split; [assumption|].
    destruct (decide (d = did)) as [->|Hne].
    + assert (ld1 = ld) as -> by congruence.
      assert (Hloc1 : local_update_timestamp self1 did = timestamp st1)
        by (now rewrite local_update_timestamp_eq, Hs1).
      split.
      * intros Hle%Z.leb_le. apply Ha.
        rewrite Hloc1, (parse_status_timestamp _ _ (Hacc Hle)). lia.
      * intros Hlt. pose proof Hlt as Hst%Z.leb_gt%Hstale.
        assert (Hloc : local_update_timestamp self did = timestamp st1)
          by (now rewrite local_update_timestamp_eq, Hst).
        rewrite Hst, <- Hs1. apply Hb. rewrite Hloc1. lia.
    + assert (Hloc : local_update_timestamp self1 d = local_update_timestamp self d)
        by (now rewrite !local_update_timestamp_eq, Hc).
      rewrite Hloc, Hc in *. now split.
  - cbn in Hd. apply elem_of_cons in Hd as [->|Hd]; [|contradiction].
    exists ld1, st1. split; [assumption|].
    rewrite (fetch_loop_results_not_bound _ _ _ _ _ _ Hnin H2).
    pose proof (fetch_loop_not_bound rest did
      (<[did := {| device := device_info; status := st1 |}]> results) self1 Hnin) as Hk.
    rewrite H2 in Hk. cbn [snd] in Hk. rewrite Hk, Hs1, lookup_insert_eq.
    split; [reflexivity|]. split; [reflexivity|].
    split.
    + now intros Hle%Z.leb_le%Hacc.
    + now intros Hlt%Z.leb_gt%Hstale.
Qed.

(** ** [fetch_data] *)

(** The devices [fetch_data] iterates over. *)
Lemma fetch_data_eq self :
  fetch_data e self = fetch_loop e (default [] (_bindings self)) ∅ self.
Proof.
  unfold fetch_data. destruct (_bindings self) as [[|]|]; reflexivity.
Qed.

Lemma fetch_data_bindings self :
  _bindings (fetch_data e self).2 = _bindings self.
Proof. rewrite fetch_data_eq. apply fetch_loop_bindings. Qed.

Lemma fetch_data_cache self d :
  _local_state_cache (fetch_data e self).2 !! d = _local_state_cache self !! d \/
  _local_state_cache (fetch_data e self).2 !! d
  = reconciled (latest e d) (_local_state_cache self !! d).
Proof. rewrite fetch_data_eq. apply fetch_loop_cache. Qed.

Lemma fetch_data_stale self d st :
  _local_state_cache self !! d = Some st ->
  (forall latest_data, latest e d = Ok latest_data ->
                       updated_at latest_data < timestamp st) ->
  _local_state_cache (fetch_data e self).2 !! d = Some st.
Proof.
  intros Hc Hstale.
  destruct (fetch_data_cache self d) as [H|H]; rewrite H, Hc; [reflexivity|].
  now apply reconciled_stale.
Qed.

Lemma fetch_data_not_bound self d :
  d ∉ (default [] (_bindings self)).*1 ->
  _local_state_cache (fetch_data e self).2 !! d = _local_state_cache self !! d.
Proof. rewrite fetch_data_eq. apply fetch_loop_not_bound. Qed.

Lemma fetch_data_bound self items d results self' :
  _bindings self = Some items ->
  d ∈ items.*1 ->
  fetch_data e self = (Ok results, self') ->
  exists latest_data st,
    latest e d = Ok latest_data /\
    _local_state_cache self' !! d = Some st /\
    status <$> results !! d = Some st /\
    (local_update_timestamp self d <= updated_at latest_data ->
     parse_status latest_data = Ok st) /\
    (updated_at latest_data < local_update_timestamp self d ->
     _local_state_cache self !! d = Some st).
Proof.
  intros Hb Hd. rewrite fetch_data_eq, Hb. cbn [default].
  now apply fetch_loop_bound.
Qed.

(** After a completed run the entry of a bound device is settled: the same
    answer again changes nothing. *)
Lemma fetch_data_settled self items d results self' :
  _bindings self = Some items ->
  d ∈ items.*1 ->
  fetch_data e self = (Ok results, self') ->
  reconciled (latest e d) (_local_state_cache self' !! d)
  = _local_state_cache self' !! d.
Proof.
  intros Hb Hd Hf.
  destruct (fetch_data_bound _ _ _ _ _ Hb Hd Hf) as (ld & st & Hl & Hs & _ & Ha & Hs0).
  rewrite Hl, Hs. cbn.
  destruct (timestamp st <=? updated_at ld) eqn:Hle; [|reflexivity].
  apply Z.leb_le in Hle.
  destruct (Z.le_gt_cases (local_update_timestamp self d) (updated_at ld)) as [H|H].
  - now rewrite (Ha H).
  - specialize (Hs0 H). rewrite local_update_timestamp_eq, Hs0 in H. cbn in H. lia.
Qed.

Lemma elem_of_fst_items (items : list (string * CleverSpaDevice)) did device_info :
  (did, device_info) ∈ items -> did ∈ items.*1.
Proof. intros H. apply list_elem_of_fmap. now exists (did, device_info). Qed.

(** ** Replaying a whole run *)

(** An iteration that raises leaves the cache alone, and raises again on
    any client with the same cache. *)
Lemma fetch_device_raises did device_info results self x results2 self2 :
  (fetch_device e did device_info results self).1 = Err x ->
  _local_state_cache self2 = _local_state_cache self ->
  _local_state_cache (fetch_device e did device_info results self).2
  = _local_state_cache self /\
  (fetch_device e did device_info results2 self2).1 = Err x /\
  _local_state_cache (fetch_device e did device_info results2 self2).2
  = _local_state_cache self.
Proof.
  rewrite !fetch_device_eq, !local_update_timestamp_eq. cbn zeta.
  intros H Hc. rewrite Hc.
  destruct (latest e did) as [ld|y]; [|now cbn in *].
  destruct (_ <=? _).
  - destruct (parse_status ld); [discriminate|]. now cbn in *.
  - destruct (_local_state_cache self !! did); [discriminate|]. now cbn in *.
Qed.

(** An iteration that succeeded succeeds again, without changing the
    cache, on any client whose entry for the device is the one it left. *)
Lemma fetch_device_again did device_info results self results1 self1 results2 self2 :
  fetch_device e did device_info results self = (Ok results1, self1) ->
  _local_state_cache self2 !! did = _local_state_cache self1 !! did ->
  (exists results3, (fetch_device e did device_info results2 self2).1 = Ok results3) /\
  _local_state_cache (fetch_device e did device_info results2 self2).2
  = _local_state_cache self2.
Proof.
  intros H1 Hc.
  apply fetch_device_ok in H1 as (ld & st & Hl & Hs & _ & Hacc & Hstale).
  rewrite Hs in Hc.
  rewrite fetch_device_eq, local_update_timestamp_eq, Hl, Hc. cbn.
  destruct (timestamp st <=? updated_at ld) eqn:Hle.
  - assert (Hp : parse_status ld = Ok st).
    { destruct (local_update_timestamp self did <=? updated_at ld) eqn:Hle0.
      - now apply Hacc.
      - specialize (Hstale eq_refl). apply Z.leb_gt in Hle0. apply Z.leb_le in Hle.
        rewrite local_update_timestamp_eq, Hstale in Hle0. cbn in Hle0. lia. }
    rewrite Hp. cbn. split; [eauto|]. now apply insert_id.
  - cbn. split; [eauto|reflexivity].
Qed.

Lemma fetch_loop_replay items : forall results self results2 self2,
  _local_state_cache self2 = _local_state_cache (fetch_loop e items results self).2 ->
  _local_state_cache (fetch_loop e items results2 self2).2 = _local_state_cache self2.
Proof.
  induction items as [|[did device_info] rest IH]; intros results self results2 self2;
    [reflexivity|].
  cbn [fetch_loop]. unfold bind.
  destruct (fetch_device e did device_info results self) as [[results1|x] self1] eqn:H1.
  - intros Hc.
    assert (Hd : _local_state_cache self2 !! did = _local_state_cache self1 !! did).
    { rewrite Hc.
      destruct (fetch_loop_cache rest did results1 self1) as [H|H]; rewrite H;
        [reflexivity|].
      pose proof (fetch_device_cache did device_info results self did) as Hr.
      rewrite H1, decide_True in Hr by done. cbn [snd] in Hr.
      now rewrite Hr, reconciled_idem. }
    destruct (fetch_device_again _ _ _ _ _ _ results2 self2 H1 Hd)
      as [[results3 Hok] Hsame].
    destruct (fetch_device e did device_info results2 self2) as [[r3|y] self3];
      [|discriminate].
    cbn [snd] in Hsame |- *. rewrite <- Hsame.
    apply (IH results1 self1). now rewrite Hsame.
  - cbn [snd]. intros Hc.
    destruct (fetch_device_raises did device_info results self x results2 self2)
      as (Hk & Herr & Hsame); [now rewrite H1| |].
    + rewrite Hc. pose proof (fetch_device_raises did device_info results self x
                                results self) as (Hk & _); [now rewrite H1|reflexivity|].
      now rewrite H1 in Hk.
    + destruct (fetch_device e did device_info results2 self2) as [[r3|y] self3];
        [discriminate|].
      cbn [snd] in *. rewrite Hsame, Hc. rewrite H1 in Hk. now cbn in Hk.
Qed.

(** Two runs against the same answers: the second leaves the whole cache
    as the first left it, whether or not the runs complete. *)
Lemma fetch_data_replay self :
  _local_state_cache (fetch_data e (fetch_data e self).2).2
  = _local_state_cache (fetch_data e self).2.
Proof.
  rewrite (fetch_data_eq (fetch_data e self).2), fetch_data_bindings.
  apply (fetch_loop_replay _ ∅ self). now rewrite fetch_data_eq.
Qed.

End Loop.

(** ** Reconciliation *)

(** C1. When [fetch_data] returns, every bound device [did] whose request
    was answered with [latest_data] has been reconciled by timestamp: the
    cached timestamp, or 0 without an entry, is compared with the answer's;
    an answer at least as recent is parsed and overwrites the entry, an
    older one is dropped and the entry stays; either way the report
    carries the entry. *)
Theorem fetch_data_reconciles e self items did device_info latest_data results self' :
  _bindings self = Some items ->
  (did, device_info) ∈ items ->
  latest e did = Ok latest_data ->
  fetch_data e self = (Ok results, self') ->
  let cached_timestamp :=
    from_option timestamp 0 (_local_state_cache self !! did) in
  (cached_timestamp <= updated_at latest_data ->
   exists st,
     parse_status latest_data = Ok st /\
     _local_state_cache self' !! did = Some st /\
     status <$> results !! did = Some st) /\
  (updated_at latest_data < cached_timestamp ->
   exists st,
     _local_state_cache self !! did = Some st /\
     _local_state_cache self' !! did = Some st /\
     status <$> results !! did = Some st).
Proof.
  intros Hb Hd%elem_of_fst_items Hl Hf. cbn zeta.
  destruct (fetch_data_bound _ _ _ _ _ _ Hb Hd Hf) as (ld & st & Hl' & Hs & Hr & Ha & Hs0).
  assert (ld = latest_data) as -> by congruence.
  rewrite <- local_update_timestamp_eq. split; intros H; exists st; auto.
Qed.

Lemma fetch_data_reconciles_witness :
  exists st,
    parse_status (spa_data 100) = Ok st /\
    _local_state_cache (fetch_data (spa_env 100 200) (spa_api (spa_status 50))).2
      !! "abc" = Some st /\
    status <$> (<["abc" := {| device := spa; status := spa_status 100 |}]> ∅
                : gmap string CleverSpaDeviceReport) !! "abc" = Some st.
Proof.
  apply (fetch_data_reconciles (spa_env 100 200) (spa_api (spa_status 50))
           [("abc", spa)] "abc" spa (spa_data 100)).
  - reflexivity.
  - constructor.
  - reflexivity.
  - reflexivity.
  - change (50 <= 100). lia.
Defined.

(** C3. Reconciliation never regresses: an entry with timestamp T1 is left
    exactly as it is by a [fetch_data] whose answer for that device carries
    a timestamp T2 < T1, whatever happens to the other devices; and when
    the run completes, the report of a bound device carries that entry. *)
Theorem fetch_data_never_regresses e self d cached latest_data :
  _local_state_cache self !! d = Some cached ->
  latest e d = Ok latest_data ->
  updated_at latest_data < timestamp cached ->
  _local_state_cache (fetch_data e self).2 !! d = Some cached /\
  (forall items results,
     _bindings self = Some items -> d ∈ items.*1 ->
     (fetch_data e self).1 = Ok results ->
     status <$> results !! d = Some cached).
Proof.
  intros Hc Hl Hlt.
  assert (Hkeep : _local_state_cache (fetch_data e self).2 !! d = Some cached).
  { apply fetch_data_stale; [assumption|]. intros ld Hld. congruence. }
  split; [assumption|].
  intros items results Hb Hd Hr.
  destruct (fetch_data e self) as [r self'] eqn:Hf. cbn in Hr, Hkeep. subst r.
  destruct (fetch_data_bound _ _ _ _ _ _ Hb Hd Hf) as (ld & st & _ & Hs & Hrep & _).
  congruence.
Qed.

Lemma fetch_data_never_regresses_witness :
  _local_state_cache
    (fetch_data (spa_env 100 200) (spa_api (cold_status 150))).2
    !! "abc"
  = Some (cold_status 150).
Proof.
  apply (fetch_data_never_regresses (spa_env 100 200)
           (spa_api (cold_status 150)) "abc"
           (cold_status 150) (spa_data 100)).
  - reflexivity.
  - reflexivity.
  - cbn. lia.
Defined.

(** C9. Reconciliation is idempotent: after a completed [fetch_data], a
    second run that gets the same answer for device [d] leaves the entry of
    [d] as the first run left it, and reports the same status when it
    completes. *)
Theorem fetch_data_idempotent e1 e2 self results1 self1 d :
  fetch_data e1 self = (Ok results1, self1) ->
  latest e2 d = latest e1 d ->
  _local_state_cache (fetch_data e2 self1).2 !! d = _local_state_cache self1 !! d /\
  (forall results2,
     (fetch_data e2 self1).1 = Ok results2 ->
     status <$> results2 !! d = status <$> results1 !! d).
Proof.
  intros Hf Heq.
  assert (Hb1 : _bindings self1 = _bindings self).
  { pose proof (fetch_data_bindings e1 self) as H. now rewrite Hf in H. }
  destruct (decide (d ∈ (default [] (_bindings self)).*1)) as [Hin|Hnin].
  - destruct (_bindings self) as [items|] eqn:Hb; [|now apply elem_of_nil in Hin].
    cbn in Hin.
    pose proof (fetch_data_settled _ _ _ _ _ _ Hb Hin Hf) as Hset.
    assert (Hkeep : _local_state_cache (fetch_data e2 self1).2 !! d
                    = _local_state_cache self1 !! d).
    { destruct (fetch_data_cache e2 self1 d) as [H|H]; rewrite H; [reflexivity|].
      now rewrite Heq. }
    split; [assumption|].
    intros results2 Hr.
    destruct (fetch_data e2 self1) as [r self2] eqn:Hf2. cbn in Hr, Hkeep. subst r.
    destruct (fetch_data_bound _ _ _ _ _ _ Hb Hin Hf) as (_ & st1 & _ & Hs1 & Hr1 & _).
    destruct (fetch_data_bound _ _ _ _ _ _ Hb1 Hin Hf2) as (_ & st2 & _ & Hs2 & Hr2 & _).
    congruence.
  - split.
    + apply fetch_data_not_bound. now rewrite Hb1.
    + intros results2 Hr.
      destruct (fetch_data e2 self1) as [r self2] eqn:Hf2. cbn in Hr. subst r.
      rewrite fetch_data_eq in Hf, Hf2. rewrite Hb1 in Hf2.
      rewrite (fetch_loop_results_not_bound _ _ _ _ _ _ _ Hnin Hf).
      now rewrite (fetch_loop_results_not_bound _ _ _ _ _ _ _ Hnin Hf2).
Qed.

Lemma fetch_data_idempotent_witness :
  let self1 := (fetch_data (spa_env 100 200) fresh_api).2 in
  _local_state_cache (fetch_data (spa_env 100 300) self1).2 !! "abc"
  = _local_state_cache self1 !! "abc".
Proof.
  cbn zeta.
  apply (fetch_data_idempotent (spa_env 100 200) (spa_env 100 300) fresh_api
           (<["abc" := {| device := spa; status := spa_status 100 |}]> ∅)
           (fetch_data (spa_env 100 200) fresh_api).2 "abc").
  - reflexivity.
  - reflexivity.
Defined.

(** C10. The status written to the cache for an accepted answer has
    [filter_age] set to the boolean [Time_filter == 0], which is never the
    value of [Time_filter] itself. *)
Theorem fetch_data_filter_age e self items did device_info latest_data results self' :
  _bindings self = Some items ->
  (did, device_info) ∈ items ->
  latest e did = Ok latest_data ->
  from_option timestamp 0 (_local_state_cache self !! did) <= updated_at latest_data ->
  fetch_data e self = (Ok results, self') ->
  exists st time_filter,
    _local_state_cache self' !! did = Some st /\
    attr latest_data !! "Time_filter" = Some time_filter /\
    filter_age st = VBool (py_eq_int time_filter 0) /\
    filter_age st <> time_filter.
Proof.
  intros Hb Hd%elem_of_fst_items Hl Hle Hf.
  destruct (fetch_data_bound _ _ _ _ _ _ Hb Hd Hf) as (ld & st & Hl' & Hs & _ & Ha & _).
  assert (ld = latest_data) as -> by congruence.
  rewrite <- local_update_timestamp_eq in Hle. specialize (Ha Hle).
  unfold parse_status, and_then, getitem in Ha.
  repeat (match type of Ha with
          | context [attr latest_data !! ?k] =>
              destruct (attr latest_data !! k) eqn:?; [|discriminate]
          end).
  injection Ha as <-. eexists _, _. split; [eassumption|]. split; [reflexivity|].
  cbn. split; [reflexivity|].
  match goal with |- VBool (py_eq_int ?v 0) <> _ => destruct v as [|[]|z| |] end;
    cbn; congruence.
Qed.

Lemma fetch_data_filter_age_witness :
  exists st,
    _local_state_cache (fetch_data (spa_env 100 200) fresh_api).2 !! "abc" = Some st /\
    filter_age st = VBool true.
Proof.
  destruct (fetch_data_filter_age (spa_env 100 200) fresh_api [("abc", spa)] "abc" spa
              (spa_data 100)
              (<["abc" := {| device := spa; status := spa_status 100 |}]> ∅)
              (fetch_data (spa_env 100 200) fresh_api).2)
    as (st & tf & Hs & Htf & Hage & _).
  - reflexivity.
  - constructor.
  - reflexivity.
  - vm_compute. discriminate.
  - reflexivity.
  - exists st. split; [exact Hs|].
    rewrite Hage. vm_compute in Htf. injection Htf as <-. reflexivity.
Defined.

(** ** Connectivity *)

(** C4. [online] holds exactly when the status is less than 1000 seconds
    old: a status exactly 1000 seconds old is offline, one 999 seconds old
    is online. *)
Theorem online_iff now st :
  (online now st = true <-> (now - inject_Z (timestamp st) < 1000)%Q) /\
  (online now st = false <-> ~ (now - inject_Z (timestamp st) < 1000)%Q) /\
  online (inject_Z (timestamp st + 1000)) st = false /\
  online (inject_Z (timestamp st + 999)) st = true.
Proof.
  assert (Hiff : forall t, online t st = true <-> (t - inject_Z (timestamp st) < 1000)%Q).
  { intros t. unfold online, _CONNECTIVITY_TIMEOUT.
    rewrite negb_true_iff, <- not_true_iff_false, Qle_bool_iff.
    change (inject_Z 1000) with 1000%Q. split; intros H; lra. }
  split; [apply Hiff|]. split; [|split].
  - rewrite <- (Hiff now). symmetry. apply not_true_iff_false.
  - apply not_true_iff_false. rewrite Hiff, inject_Z_plus.
    change (inject_Z 1000) with 1000%Q. lra.
  - apply Hiff. rewrite inject_Z_plus. change (inject_Z 999) with 999%Q. lra.
Qed.

(** ** The request log *)

Lemma emits_ret {A} (a : A) P : emits (ret a) P.
Proof. intros self. exists []. cbn. now rewrite app_nil_r. Qed.

Lemma emits_lift {A} (r : Result A) P : emits (lift r) P.
Proof. intros self. exists []. cbn. now rewrite app_nil_r. Qed.

Lemma emits_emit ev (P : Event -> Prop) : P ev -> emits (emit ev) P.
Proof. intros H self. exists [ev]. cbn. split; [reflexivity|]. now constructor. Qed.

Lemma emits_bind {A B} (m : Api A) (k : A -> Api B) P :
  emits m P -> (forall a, emits (k a) P) -> emits (bind m k) P.
Proof.
  intros Hm Hk self. unfold bind.
  destruct (Hm self) as (evs1 & H1 & HP1).
  destruct (m self) as [[a|x] self1]; cbn [snd] in H1.
  - destruct (Hk a self1) as (evs2 & H2 & HP2).
    exists (evs1 ++ evs2)%list. rewrite H2, H1, app_assoc. split; [reflexivity|].
    now apply Forall_app.
  - now exists evs1.
Qed.

Lemma emits_cache_getitem key P : emits (cache_getitem key) P.
Proof.
  intros self. exists []. rewrite app_nil_r. split; [|constructor].
  unfold cache_getitem. destruct key; [|reflexivity].
  now destruct (_ !! _).
Qed.

Lemma emits_cache_setitem did st P : emits (cache_setitem did st) P.
Proof. intros self. exists []. cbn. now rewrite app_nil_r. Qed.

Create HintDb emits.
#[local] Hint Resolve emits_ret emits_lift emits_emit emits_cache_getitem
  emits_cache_setitem : emits.

(** Follow a chain of binds, one computation at a time. *)
Ltac emits_steps :=
  repeat (apply emits_bind; [|intros ?]); eauto with emits.

Lemma emits_cache_setattr key assign P : emits (cache_setattr key assign) P.
Proof. unfold cache_setattr. emits_steps. destruct key; eauto with emits. Qed.

Lemma emits__do_get e did (P : Event -> Prop) : P (EvGet did) -> emits (_do_get e did) P.
Proof. intros H. unfold _do_get. emits_steps. Qed.

Lemma emits__do_post e target name value (P : Event -> Prop) :
  P (EvPost target name value) -> emits (_do_post e target name value) P.
Proof. intros H. unfold _do_post. emits_steps. Qed.

#[local] Hint Resolve emits_cache_setattr emits__do_get emits__do_post : emits.

Lemma emits_fetch_device e did device_info results (P : Event -> Prop) :
  P (EvGet did) -> emits (fetch_device e did device_info results) P.
Proof.
  intros H self. rewrite fetch_device_eq. cbn zeta. exists [EvGet did].
  split; [|now constructor].
  repeat (match goal with |- context [match ?x with _ => _ end] => destruct x end);
    reflexivity.
Qed.

Lemma emits_fetch_loop e items (P : Event -> Prop) :
  (forall did, P (EvGet did)) -> forall results, emits (fetch_loop e items results) P.
Proof.
  intros H. induction items as [|[did device_info] rest IH]; intros results.
  - apply emits_ret.
  - cbn [fetch_loop]. apply emits_bind; [now apply emits_fetch_device|]. apply IH.
Qed.

(** [fetch_data] issues devdata requests only. *)
Lemma emits_fetch_data e (P : Event -> Prop) :
  (forall did, P (EvGet did)) -> emits (fetch_data e) P.
Proof.
  intros H self. rewrite fetch_data_eq. now apply emits_fetch_loop.
Qed.

#[local] Hint Resolve emits_fetch_data : emits.

(** A completed [fetch_data] has requested every bound device, in order. *)
Lemma fetch_loop_requests e items : forall results self results' self',
  fetch_loop e items results self = (Ok results', self') ->
  requests self' = (requests self ++ (EvGet <$> items.*1))%list.
Proof.
  induction items as [|[did device_info] rest IH]; intros results self results' self'.
  - intros [= <- <-]. cbn. now rewrite app_nil_r.
  - cbn [fetch_loop]. intros (results1 & self1 & H1 & H2)%bind_ok_inv.
    rewrite (IH _ _ _ _ H2).
    rewrite fetch_device_eq in H1. cbn zeta in H1.
    assert (requests self1 = (requests self ++ [EvGet did])%list) as ->.
    { repeat (match type of H1 with context [match ?x with _ => _ end] => destruct x end);
        try discriminate; now injection H1 as <- <-. }
    cbn. now rewrite <- app_assoc.
Qed.

Lemma fetch_data_requests e self results self' :
  fetch_data e self = (Ok results, self') ->
  requests self' = (requests self ++ (EvGet <$> (default [] (_bindings self)).*1))%list.
Proof. rewrite fetch_data_eq. apply fetch_loop_requests. Qed.

(** ** Commands *)

Lemma set_target_temp_eq e device_id target_temp self cached body :
  _local_state_cache self !! device_id = Some cached ->
  posted e (KStr device_id) "Temperature_setup" target_temp = Ok body ->
  set_target_temp e device_id target_temp self
  = bind (fetch_data e) (fun _ => ret tt)
      (with_cache
         (<[device_id := set_temp_set (VInt target_temp)
                           (set_timestamp (int (time e)) cached)]>
            (_local_state_cache self))
         (with_event (EvPost (KStr device_id) "Temperature_setup" target_temp) self)).
Proof.
  intros Hc Hp. unfold set_target_temp.
  erewrite bind_ok by (rewrite _do_post_eq, Hp; reflexivity).
  erewrite bind_ok by (apply cache_setattr_eq; exact Hc).
  erewrite bind_ok by (apply cache_setattr_eq; apply lookup_insert_eq).
  cbn. now rewrite insert_insert_eq.
Qed.

Lemma set_bubbles_eq e device_id (bubbles : bool) self cached body :
  _local_state_cache self !! device_id = Some cached ->
  posted e (KStr device_id) "Bubble" (if bubbles then 1 else 0) = Ok body ->
  set_bubbles e device_id bubbles self
  = bind (fetch_data e) (fun _ => ret tt)
      (with_cache
         (<[device_id := set_filter_power bubbles
                           (set_timestamp (int (time e)) cached)]>
            (_local_state_cache self))
         (with_event (EvPost (KStr device_id) "Bubble" (if bubbles then 1 else 0)) self)).
Proof.
  intros Hc Hp. unfold set_bubbles.
  erewrite bind_ok by (rewrite _do_post_eq, Hp; reflexivity).
  erewrite bind_ok by (apply cache_setattr_eq; exact Hc).
  erewrite bind_ok by (apply cache_setattr_eq; apply lookup_insert_eq).
  cbn. rewrite insert_insert_eq. destruct bubbles.
  - erewrite bind_ok by (apply cache_setattr_eq; apply lookup_insert_eq).
    cbn. now rewrite insert_insert_eq.
  - erewrite bind_ok by reflexivity. reflexivity.
Qed.

Lemma set_filter_off_eq e device_id self cached body :
  _local_state_cache self !! device_id = Some cached ->
  posted e (KStr device_id) "Filter" 0 = Ok body ->
  set_filter e (KStr device_id) false self
  = (Ok tt,
     with_cache
       (<[device_id := set_heat_power false
                         (set_instance_attr "wave_power" (VBool false)
                            (set_filter_power false
                               (set_timestamp (int (time e)) cached)))]>
          (_local_state_cache self))
       (with_event (EvPost (KStr device_id) "Filter" 0) self)).
Proof.
  intros Hc Hp. unfold set_filter. cbn [negb].
  erewrite bind_ok by (rewrite _do_post_eq, Hp; reflexivity).
  erewrite bind_ok by (apply cache_setattr_eq; exact Hc).
  erewrite bind_ok by (apply cache_setattr_eq; apply lookup_insert_eq).
  erewrite bind_ok by (apply cache_setattr_eq; apply lookup_insert_eq).
  erewrite cache_setattr_eq by apply lookup_insert_eq.
  cbn. now rewrite !insert_insert_eq.
Qed.

(** [set_heat(d, False)] up to the cooldown: the entry is stamped and
    [heat_power] cleared, the data fetched, 30 seconds slept, and
    [set_filter] called on the cached status object. *)
Lemma set_heat_off_eq e e' device_id self cached body :
  _local_state_cache self !! device_id = Some cached ->
  posted e (KStr device_id) "Heater" 0 = Ok body ->
  set_heat e e' device_id false self
  = bind (fetch_data e)
      (fun _ => do _ <- sleep 30;
                do cached' <- cache_getitem (KStr device_id);
                set_filter e' (KStatus cached') false)
      (with_cache
         (<[device_id := set_heat_power false (set_timestamp (int (time e)) cached)]>
            (_local_state_cache self))
         (with_event (EvPost (KStr device_id) "Heater" 0) self)).
Proof.
  intros Hc Hp. unfold set_heat.
  erewrite bind_ok by (rewrite _do_post_eq, Hp; reflexivity).
  erewrite bind_ok by (apply cache_setattr_eq; exact Hc).
  erewrite bind_ok by (apply cache_setattr_eq; apply lookup_insert_eq).
  cbn. now rewrite insert_insert_eq.
Qed.

(** Without a cache entry a command raises [KeyError] after its control
    request has gone out. *)
Example set_target_temp_without_entry :
  set_target_temp (spa_env 100 200) "abc" 35 fresh_api
  = (Err (KeyError "abc"),
     {| _bindings := Some [("abc", spa)]; _local_state_cache := ∅;
        requests := [EvPost (KStr "abc") "Temperature_setup" 35] |}).
Proof. reflexivity. Qed.

(** Called with a status object where a device id belongs, [set_filter]
    raises: the POST fails, or else the cache lookup does. *)
Lemma set_filter_status_raises e st filtering self :
  exists x, (set_filter e (KStatus st) filtering self).1 = Err x.
Proof.
  unfold set_filter, bind. rewrite _do_post_eq.
  destruct (posted _ _ _ _); cbn; eauto.
Qed.

Lemma bind_ret_tt_state {A} (m : Api A) self :
  (bind m (fun _ => ret tt) self).2 = (m self).2.
Proof. unfold bind. now destruct (m self) as [[a|x] self1]. Qed.

Lemma bind_ret_tt_ok {A} (m : Api A) self self' :
  bind m (fun _ => ret tt) self = (Ok tt, self') ->
  exists a, m self = (Ok a, self').
Proof.
  intros (a & self1 & H1 & H2)%bind_ok_inv. injection H2 as <-. now exists a.
Qed.

(** C2. After [set_target_temp(d, 35)] on a device with a cache entry,
    while the server still answers for [d] with a timestamp strictly older
    than the time of the command, the cache holds [temp_set = 35] and a
    following [fetch_data] reports [temp_set = 35] for [d]. *)
Theorem set_target_temp_survives_stale_fetch
    e e' self d cached body answer answer' :
  _local_state_cache self !! d = Some cached ->
  posted e (KStr d) "Temperature_setup" 35 = Ok body ->
  latest e d = Ok answer ->
  updated_at answer < int (time e) ->
  latest e' d = Ok answer' ->
  updated_at answer' < int (time e) ->
  let self1 := (set_target_temp e d 35 self).2 in
  (exists st,
     _local_state_cache self1 !! d = Some st /\
     timestamp st = int (time e) /\ temp_set st = VInt 35) /\
  (forall items results,
     _bindings self = Some items -> d ∈ items.*1 ->
     (fetch_data e' self1).1 = Ok results ->
     exists report,
       results !! d = Some report /\ temp_set (status report) = VInt 35).
Proof.
  intros Hc Hp Hl Hlt Hl' Hlt'. cbn zeta.
  rewrite (set_target_temp_eq _ _ _ _ _ _ Hc Hp), bind_ret_tt_state.
  set (written := set_temp_set (VInt 35) (set_timestamp (int (time e)) cached)).
  set (self0 := with_cache _ _).
  assert (H1 : _local_state_cache (fetch_data e self0).2 !! d = Some written).
  { apply fetch_data_stale; [apply lookup_insert_eq|].
    intros ld Hld. assert (ld = answer) as -> by congruence. exact Hlt. }
  split; [now exists written|].
  intros items results Hb Hd Hr.
  assert (Hb1 : _bindings (fetch_data e self0).2 = Some items)
    by (now rewrite fetch_data_bindings).
  assert (H2 : _local_state_cache (fetch_data e' (fetch_data e self0).2).2 !! d
               = Some written).
  { apply fetch_data_stale; [exact H1|].
    intros ld Hld. assert (ld = answer') as -> by congruence. exact Hlt'. }
  destruct (fetch_data e' (fetch_data e self0).2) as [r self2] eqn:Hf.
  cbn in Hr, H2. subst r.
  destruct (fetch_data_bound _ _ _ _ _ _ Hb1 Hd Hf) as (_ & st & _ & Hs & Hrep & _).
  assert (st = written) as -> by congruence.
  destruct (results !! d) as [report|]; [|discriminate].
  exists report. split; [reflexivity|]. now injection Hrep as ->.
Qed.

Lemma set_target_temp_survives_stale_fetch_witness :
  exists st,
    _local_state_cache
      (set_target_temp (cold_env 100 200) "abc" 35 (spa_api (cold_status 100))).2
      !! "abc" = Some st /\
    timestamp st = 200 /\ temp_set st = VInt 35.
Proof.
  apply (set_target_temp_survives_stale_fetch (cold_env 100 200) (cold_env 100 203)
           (spa_api (cold_status 100)) "abc" (cold_status 100) VNone
           (cold_data 100) (cold_data 100)).
  - reflexivity.
  - reflexivity.
  - reflexivity.
  - change (100 < 200). lia.
  - reflexivity.
  - change (100 < 200). lia.
Defined.

(** The following fetch of that scenario completes and reports 35 although
    the server still says 20. *)
Example set_target_temp_then_fetch :
  (fetch_data (cold_env 100 203)
     (set_target_temp (cold_env 100 200) "abc" 35 (spa_api (cold_status 100))).2).1
  = Ok (<["abc" := {| device := spa;
                      status := set_temp_set (VInt 35)
                                  (set_timestamp 200 (cold_status 100)) |}]> ∅).
Proof. reflexivity. Qed.

(** With [>=], an answer stamped in the very second of the command is
    accepted, and the optimistic write is replaced. *)
Example set_target_temp_same_second :
  temp_set <$>
    _local_state_cache
      (set_target_temp (cold_env 200 200) "abc" 35 (spa_api (cold_status 100))).2
      !! "abc"
  = Some (VInt 20).
Proof. reflexivity. Qed.

(** C8. [set_bubbles(d, on/off)] on a device with a cache entry, once the
    control request is accepted: the cached status gets [timestamp = now]
    and [filter_power = bubbles] (so [True] when turning on), every other
    field, [bubble_power] included, is left as it was, and the command then
    runs [fetch_data] at once; when it returns, the requests issued are the
    control request followed by one devdata request per bound device. *)
Theorem set_bubbles_cache_mutation e self d cached (bubbles : bool) body :
  _local_state_cache self !! d = Some cached ->
  posted e (KStr d) "Bubble" (if bubbles then 1 else 0) = Ok body ->
  let control := EvPost (KStr d) "Bubble" (if bubbles then 1 else 0) in
  exists written,
    set_bubbles e d bubbles self
    = bind (fetch_data e) (fun _ => ret tt)
        (with_cache (<[d := written]> (_local_state_cache self))
           (with_event control self)) /\
    timestamp written = int (time e) /\
    filter_power written = bubbles /\
    (bubbles = true -> filter_power written = true) /\
    bubble_power written = bubble_power cached /\
    heat_power written = heat_power cached /\
    temp_now written = temp_now cached /\
    temp_set written = temp_set cached /\
    temp_set_unit written = temp_set_unit cached /\
    filter_age written = filter_age cached /\
    errors written = errors cached /\
    instance_attrs written = instance_attrs cached /\
    (forall self',
       set_bubbles e d bubbles self = (Ok tt, self') ->
       requests self'
       = (requests self ++ control :: (EvGet <$> (default [] (_bindings self)).*1))%list).
Proof.
  intros Hc Hp. cbn zeta.
  exists (set_filter_power bubbles (set_timestamp (int (time e)) cached)).
  split; [now apply (set_bubbles_eq _ _ _ _ _ body)|].
  repeat (split; [reflexivity || (now intros ->)|]).
  intros self'. rewrite (set_bubbles_eq _ _ _ _ _ body Hc Hp).
  intros (results & Hf)%bind_ret_tt_ok.
  apply fetch_data_requests in Hf. rewrite Hf. cbn.
  now rewrite <- app_assoc.
Qed.

Lemma set_bubbles_cache_mutation_witness :
  exists written,
    set_bubbles (spa_env 100 200) "abc" false (spa_api (spa_bubbling 150))
    = bind (fetch_data (spa_env 100 200)) (fun _ => ret tt)
        (with_cache (<["abc" := written]>
                       (_local_state_cache (spa_api (spa_bubbling 150))))
           (with_event (EvPost (KStr "abc") "Bubble" 0) (spa_api (spa_bubbling 150)))) /\
    timestamp written = 200 /\
    filter_power written = false.
Proof.
  destruct (set_bubbles_cache_mutation (spa_env 100 200) (spa_api (spa_bubbling 150))
              "abc" (spa_bubbling 150) false VNone)
    as (written & Heq & Ht & Hf & _).
  - reflexivity.
  - reflexivity.
  - exists written. split; [exact Heq|]. split; [exact Ht | exact Hf].
Defined.

(** Turning the bubbles off leaves [bubble_power] on in the cache. *)
Example set_bubbles_off :
  set_bubbles (spa_env 100 200) "abc" false (spa_api (spa_bubbling 150))
  = (Ok tt,
     {| _bindings := Some [("abc", spa)];
        _local_state_cache :=
          <["abc" := set_filter_power false (set_timestamp 200 (spa_bubbling 150))]> ∅;
        requests := [EvPost (KStr "abc") "Bubble" 0; EvGet "abc"] |}).
Proof. reflexivity. Qed.

(** ** Defects *)

(** With a cache entry and an accepted control request, [set_filter(d,
    False)] stamps the entry, clears [filter_power] and [heat_power], and
    binds a stray [wave_power] attribute; [bubble_power] keeps its
    value.  Nothing is fetched. *)
Lemma set_filter_off_bubble_power e self d cached body :
  _local_state_cache self !! d = Some cached ->
  posted e (KStr d) "Filter" 0 = Ok body ->
  exists self' st,
    set_filter e (KStr d) false self = (Ok tt, self') /\
    requests self' = (requests self ++ [EvPost (KStr d) "Filter" 0])%list /\
    _local_state_cache self' !! d = Some st /\
    timestamp st = int (time e) /\
    filter_power st = false /\
    heat_power st = false /\
    bubble_power st = bubble_power cached /\
    instance_attrs st !! "wave_power" = Some (VBool false).
Proof.
  intros Hc Hp. rewrite (set_filter_off_eq e d self cached body Hc Hp).
  eexists _, _. split; [reflexivity|]. cbn. rewrite lookup_insert_eq.
  repeat split; try reflexivity. cbn. apply lookup_insert_eq.
Qed.

(** C6 on a bubbling spa: the filter is switched off, the entry gets
    [timestamp = now], [filter_power = False] and [heat_power = False] and
    nothing is fetched, but the cached [bubble_power] is still [True]
    afterwards; the source assigns [wave_power], which is not a field. *)
Theorem set_filter_off_leaves_bubble_power :
  set_filter (spa_env 100 200) (KStr "abc") false (spa_api (spa_bubbling 150))
  = (Ok tt,
     {| _bindings := Some [("abc", spa)];
        _local_state_cache :=
          <["abc" := {| timestamp := 200; temp_now := VInt 30; temp_set := VInt 35;
                        temp_set_unit := CELSIUS; heat_power := false;
                        filter_power := false; bubble_power := true;
                        filter_age := VBool true; errors := [];
                        instance_attrs := <["wave_power" := VBool false]> ∅ |}]> ∅;
        requests := [EvPost (KStr "abc") "Filter" 0] |}).
Proof. reflexivity. Qed.


#[local] Hint Extern 1 (not_filter_control _) => exact I : emits.

Lemma emits_set_filter_status e st filtering :
  emits (set_filter e (KStatus st) filtering) not_filter_control.
Proof.
  unfold set_filter. emits_steps.
  destruct (negb filtering); emits_steps.
Qed.

(** Whatever the server answers, [set_heat] never addresses a filter
    control request to a device id. *)
Lemma emits_set_heat e e' device_id heat :
  emits (set_heat e e' device_id heat) not_filter_control.
Proof.
  unfold set_heat. emits_steps.
  destruct heat; emits_steps.
Qed.

(** [set_heat(d, False)] never returns normally. *)
Lemma set_heat_off_raises e e' device_id self :
  exists x, (set_heat e e' device_id false self).1 = Err x.
Proof.
  unfold set_heat, bind.
  repeat (match goal with
          | |- context [match ?m ?s with _ => _ end] =>
              destruct (m s) as [[?|?] ?]; [|cbn; eauto]
          end).
  apply set_filter_status_raises.
Qed.

(** C5 on a cached, bound device whose heater is switched off.  The entry
    is stamped and [heat_power] cleared, the data fetched, 30 seconds
    slept; then the filter request goes out with the status object where
    the device id belongs, and the cache lookup on that object raises.  No
    filter-off reaches device "abc", and its [filter_power] stays on. *)
Theorem set_heat_off_filter_request :
  let written := set_heat_power false (set_timestamp 200 (spa_status 150)) in
  set_heat (spa_env 100 200) (spa_env 100 230) "abc" false (spa_api (spa_status 150))
  = (Err (TypeError "unhashable type: 'CleverSpaDeviceStatus'"),
     {| _bindings := Some [("abc", spa)];
        _local_state_cache := <["abc" := written]> ∅;
        requests := [EvPost (KStr "abc") "Heater" 0; EvGet "abc"; EvSleep 30;
                     EvPost (KStatus written) "Filter" 0] |})
  /\ filter_power written = true.
Proof. split; reflexivity. Qed.

(** The same with a server that rejects the malformed URL. *)
Example set_heat_off_strict :
  (set_heat (strict_env 100 200) (strict_env 100 230) "abc" false
     (spa_api (spa_status 150))).1
  = Err (ClientResponseError 404 "Not Found").
Proof. reflexivity. Qed.

(** ** Login *)

Lemma raise_for_status_eq {B} (response : ClientResponse B) :
  raise_for_status response = response_raise_for_status response.
Proof.
  unfold raise_for_status, response_raise_for_status.
  destruct (ok response); [reflexivity|]. now destruct (response_json response).
Qed.

(** C7, as the code has it: when the identity provider answers with a
    non-success status, [get_user_token] raises aiohttp's
    [ClientResponseError] with that status and the HTTP reason phrase; it
    returns no token and raises no [AuthError]. *)
Theorem get_user_token_rejected session username password response :
  verify_password session username password = Ok response ->
  ok response = false ->
  get_user_token session username password
  = Err (ClientResponseError (code response) (reason response)) /\
  (forall token, get_user_token session username password <> Ok token) /\
  (forall message, get_user_token session username password <> Err (AuthError message)).
Proof.
  intros Hv Hok.
  assert (H : get_user_token session username password
              = Err (ClientResponseError (code response) (reason response))).
  { unfold get_user_token, and_then. rewrite Hv, raise_for_status_eq.
    unfold response_raise_for_status. now rewrite Hok. }
  rewrite H. repeat split; intros; discriminate.
Qed.

Lemma get_user_token_rejected_witness :
  get_user_token rejecting "user" "secret"
  = Err (ClientResponseError 400 "Bad Request").
Proof.
  apply (get_user_token_rejected rejecting "user" "secret" rejected).
  - reflexivity.
  - reflexivity.
Defined.

(** C7 with [AuthError] does not hold: the provider answers 400 with the
    message INVALID_PASSWORD, and what is raised is not an [AuthError]
    with that message. *)
Lemma get_user_token_no_AuthError :
  ~ (forall session username password response body message,
       verify_password session username password = Ok response ->
       ok response = false ->
       response_json response = Ok body ->
       error_message body = Ok (VStr message) ->
       get_user_token session username password = Err (AuthError message)).
Proof.
  intros H.
  specialize (H rejecting "user" "secret" rejected _ "INVALID_PASSWORD"
                eq_refl eq_refl eq_refl eq_refl).
  discriminate H.
Qed.

(** ** What every method keeps *)

Section Steps.

Context (R : relation CleverSpaApi) `{!PreOrder R}.
Context (allowed : (CleverSpaDeviceStatus -> CleverSpaDeviceStatus) -> Prop).

Hypothesis R_event : forall self ev, R self (with_event ev self).
Hypothesis R_assign : forall self did st assign,
  _local_state_cache self !! did = Some st ->
  allowed assign ->
  R self (with_cache (<[did := assign st]> (_local_state_cache self)) self).
Hypothesis R_accept : forall self did latest_data st,
  parse_status latest_data = Ok st ->
  local_update_timestamp self did <= updated_at latest_data ->
  R self (with_cache (<[did := st]> (_local_state_cache self)) self).
Hypothesis allowed_timestamp : forall v, allowed (set_timestamp v).
Hypothesis allowed_temp_set : forall v, allowed (set_temp_set v).
Hypothesis allowed_heat_power : forall v, allowed (set_heat_power v).
Hypothesis allowed_filter_power : forall v, allowed (set_filter_power v).
Hypothesis allowed_instance_attr : forall name v, allowed (set_instance_attr name v).

Lemma steps_ret {A} (a : A) : steps R (ret a).
Proof. intros self. reflexivity. Qed.

Lemma steps_lift {A} (r : Result A) : steps R (lift r).
Proof. intros self. reflexivity. Qed.

Lemma steps_emit ev : steps R (emit ev).
Proof. intros self. apply R_event. Qed.

Lemma steps_bind {A B} (m : Api A) (k : A -> Api B) :
  steps R m -> (forall a, steps R (k a)) -> steps R (bind m k).
Proof.
  intros Hm Hk self. unfold bind. specialize (Hm self).
  destruct (m self) as [[a|x] self1]; cbn [snd] in *; [|assumption].
  etransitivity; [exact Hm|apply Hk].
Qed.

Lemma steps_cache_getitem key : steps R (cache_getitem key).
Proof.
  intros self. unfold cache_getitem. destruct key; [|reflexivity].
  destruct (_ !! _); reflexivity.
Qed.

Lemma steps_cache_setattr key assign :
  allowed assign -> steps R (cache_setattr key assign).
Proof.
  intros Ha self. destruct key as [did|st]; [|reflexivity].
  destruct (_local_state_cache self !! did) as [st|] eqn:Hc.
  - rewrite (cache_setattr_eq _ _ _ _ Hc). now apply R_assign.
  - rewrite (cache_setattr_missing _ _ _ Hc). reflexivity.
Qed.

Lemma steps__do_get e did : steps R (_do_get e did).
Proof. intros self. rewrite _do_get_eq. apply R_event. Qed.

Lemma steps__do_post e target name value : steps R (_do_post e target name value).
Proof. intros self. rewrite _do_post_eq. apply R_event. Qed.

Lemma steps_fetch_device e did device_info results :
  steps R (fetch_device e did device_info results).
Proof.
  intros self. rewrite fetch_device_eq. cbn zeta.
  destruct (latest e did) as [latest_data|x]; [|apply R_event].
  destruct (_ <=? _) eqn:Hle.
  - destruct (parse_status latest_data) as [st|x] eqn:Hp; [|apply R_event].
    cbn [snd]. etransitivity; [apply (R_event self (EvGet did))|].
    apply (R_accept (with_event (EvGet did) self) did latest_data st Hp).
    now apply Z.leb_le.
  - destruct (_local_state_cache self !! did); apply R_event.
Qed.

Lemma steps_fetch_loop e items : forall results, steps R (fetch_loop e items results).
Proof.
  induction items as [|[did device_info] rest IH]; intros results.
  - apply steps_ret.
  - cbn [fetch_loop]. apply steps_bind; [apply steps_fetch_device|apply IH].
Qed.

Lemma steps_fetch_data e : steps R (fetch_data e).
Proof. intros self. rewrite fetch_data_eq. apply steps_fetch_loop. Qed.

Lemma steps_set_filter e key filtering : steps R (set_filter e key filtering).
Proof.
  unfold set_filter. apply steps_bind; [apply steps__do_post|intros _].
  do 2 (apply steps_bind; [now apply steps_cache_setattr|intros _]).
  destruct (negb filtering); [|apply steps_ret].
  apply steps_bind; [now apply steps_cache_setattr|intros _].
  now apply steps_cache_setattr.
Qed.

Lemma steps_set_heat e e' device_id heat : steps R (set_heat e e' device_id heat).
Proof.
  unfold set_heat. apply steps_bind; [apply steps__do_post|intros _].
  do 2 (apply steps_bind; [now apply steps_cache_setattr|intros _]).
  destruct heat.
  - apply steps_bind; [now apply steps_cache_setattr|intros _].
    apply steps_bind; [apply steps_fetch_data|intros _]. apply steps_ret.
  - apply steps_bind; [apply steps_fetch_data|intros _].
    apply steps_bind; [apply steps_emit|intros _].
    apply steps_bind; [apply steps_cache_getitem|intros cached].
    apply steps_set_filter.
Qed.

Lemma steps_set_locked e device_id locked : steps R (set_locked e device_id locked).
Proof.
  unfold set_locked. apply steps_bind; [apply steps__do_post|intros _].
  do 2 (apply steps_bind; [now apply steps_cache_setattr|intros _]).
  apply steps_bind; [apply steps_fetch_data|intros _]. apply steps_ret.
Qed.

Lemma steps_set_bubbles e device_id bubbles : steps R (set_bubbles e device_id bubbles).
Proof.
  unfold set_bubbles. apply steps_bind; [apply steps__do_post|intros _].
  do 2 (apply steps_bind; [now apply steps_cache_setattr|intros _]).
  apply steps_bind; [destruct bubbles; [now apply steps_cache_setattr|apply steps_ret]
                    |intros _].
  apply steps_bind; [apply steps_fetch_data|intros _]. apply steps_ret.
Qed.

Lemma steps_set_target_temp e device_id target_temp :
  steps R (set_target_temp e device_id target_temp).
Proof.
  unfold set_target_temp. apply steps_bind; [apply steps__do_post|intros _].
  do 2 (apply steps_bind; [now apply steps_cache_setattr|intros _]).
  apply steps_bind; [apply steps_fetch_data|intros _]. apply steps_ret.
Qed.

Lemma steps_dispatch e e' device_id c : steps R (dispatch e e' device_id c).
Proof.
  destruct c; cbn [dispatch];
    auto using steps_set_heat, steps_set_filter, steps_set_locked,
               steps_set_bubbles, steps_set_target_temp.
Qed.

End Steps.

#[local] Instance entries_kept_preorder : PreOrder entries_kept.
Proof. split; [intros s d H; exact H | intros s1 s2 s3 H1 H2 d H; auto]. Qed.

#[local] Instance timestamps_grow_preorder : PreOrder timestamps_grow.
Proof.
  split.
  - intros s d st H. exists st. split; [exact H|lia].
  - intros s1 s2 s3 H1 H2 d st H.
    destruct (H1 d st H) as (st2 & Hs2 & Hle2).
    destruct (H2 d st2 Hs2) as (st3 & Hs3 & Hle3).
    exists st3. split; [exact Hs3|lia].
Qed.

#[local] Instance same_bindings_preorder : PreOrder same_bindings.
Proof. split; [intros s; reflexivity | intros s1 s2 s3 H1 H2; unfold same_bindings in *; congruence]. Qed.

#[local] Instance keeps_preorder P : PreOrder (keeps P).
Proof. split; [intros s H; exact H | intros s1 s2 s3 H1 H2 H; auto]. Qed.

Lemma refresh_bindings_eq answer self :
  refresh_bindings answer self
  = match listed answer with
    | Ok found => (Ok tt, with_bindings (Some (bindings_dict found)) self)
    | Err x => (Err x, self)
    end.
Proof.
  unfold refresh_bindings, _get_bindings, listed, bind, lift, and_then.
  destruct answer as [response|x]; [|reflexivity].
  destruct (response_raise_for_status response); [|reflexivity].
  destruct (response_json response) as [api_data|x]; [|reflexivity].
  destruct (parse_devices (devices api_data)); reflexivity.
Qed.

Lemma refresh_bindings_cache answer self :
  _local_state_cache (refresh_bindings answer self).2 = _local_state_cache self.
Proof. rewrite refresh_bindings_eq. now destruct (listed answer). Qed.

Lemma dispatch_entries_kept e e' device_id c :
  steps entries_kept (dispatch e e' device_id c).
Proof.
  apply (steps_dispatch entries_kept (fun _ => True)); unfold entries_kept; auto.
  - intros self did st assign Hc _ d Hd. cbn.
    destruct (decide (did = d)) as [->|Hne].
    + rewrite lookup_insert_eq. eauto.
    + now rewrite lookup_insert_ne.
  - intros self did latest_data st _ _ d Hd. cbn.
    destruct (decide (did = d)) as [->|Hne].
    + rewrite lookup_insert_eq. eauto.
    + now rewrite lookup_insert_ne.
Qed.

Lemma fetch_data_timestamps_grow e : steps timestamps_grow (fetch_data e).
Proof.
  apply (steps_fetch_data timestamps_grow); unfold timestamps_grow.
  - intros self ev d st H. exists st. split; [exact H|lia].
  - intros self did latest_data st Hp Hle d st0 Hd. cbn.
    destruct (decide (did = d)) as [->|Hne].
    + rewrite lookup_insert_eq. exists st. split; [reflexivity|].
      rewrite local_update_timestamp_eq, Hd in Hle. cbn in Hle.
      now rewrite (parse_status_timestamp _ _ Hp).
    + rewrite lookup_insert_ne by done. exists st0. split; [exact Hd|lia].
Qed.

Lemma perform_entries_kept call : steps entries_kept (perform call).
Proof.
  destruct call as [answer|e|e e' device_id c]; cbn [perform].
  - intros self d Hd. now rewrite refresh_bindings_cache.
  - intros self. rewrite bind_ret_tt_state. revert self.
    change (steps entries_kept (fetch_data e)).
    intros self d [st Hd].
    destruct (fetch_data_timestamps_grow e self d st Hd) as (st' & Hs & _). eauto.
  - apply dispatch_entries_kept.
Qed.

(** X1. No call ever drops a cache entry: a device that has an entry keeps
    one through any sequence of registry refreshes, fetches and commands,
    whether they return or raise. *)
Theorem run_keeps_entries calls self did :
  is_Some (_local_state_cache self !! did) ->
  is_Some (_local_state_cache (run calls self) !! did).
Proof.
  revert self. induction calls as [|call rest IH]; intros self H; [exact H|].
  cbn [run]. apply IH. now apply perform_entries_kept.
Qed.

Lemma run_keeps_entries_witness :
  is_Some (_local_state_cache
             (run [Refresh one_spa; Control (spa_env 100 200) (spa_env 100 230) "abc" (Heat false);
                   Fetch (failing_env 300)]
                (spa_api (spa_status 150))) !! "abc").
Proof.
  apply (run_keeps_entries _ (spa_api (spa_status 150)) "abc").
  exists (spa_status 150). reflexivity.
Defined.

(** X2. [fetch_data] never moves an entry back in time: whatever the
    server answers and whether or not the run completes, every entry is
    still there afterwards with a timestamp at least as large. *)
Theorem fetch_data_timestamps_monotone e self did st :
  _local_state_cache self !! did = Some st ->
  exists st',
    _local_state_cache (fetch_data e self).2 !! did = Some st' /\
    timestamp st <= timestamp st'.
Proof. apply fetch_data_timestamps_grow. Qed.

Lemma fetch_data_timestamps_monotone_witness :
  exists st',
    _local_state_cache (fetch_data (spa_env 100 200) (spa_api (spa_status 50))).2
      !! "abc" = Some st' /\
    50 <= timestamp st'.
Proof.
  apply (fetch_data_timestamps_monotone (spa_env 100 200) (spa_api (spa_status 50))
           "abc" (spa_status 50)).
  reflexivity.
Defined.

(** ** The registry as a dict *)

#[local] Set Warnings "-clear-no-such-hyp".

Lemma dict_set_elem {V} (key : string) (v : V) items k' v' :
  NoDup items.*1 ->
  (k', v') ∈ dict_set key v items <->
  (k' = key /\ v' = v) \/ (k' <> key /\ (k', v') ∈ items).
Proof.
  induction items as [|[k w] rest IH]; intros Hnd; cbn.
  - rewrite list_elem_of_singleton, elem_of_nil. naive_solver.
  - cbn in Hnd. apply NoDup_cons in Hnd as [Hk Hnd].
    assert (Hfresh : forall w', (k, w') ∉ rest).
    { intros w' Hw. apply Hk. apply list_elem_of_fmap. now exists (k, w'). }
    destruct (decide (k = key)) as [->|Hne]; rewrite !elem_of_cons, ?(IH Hnd);
      naive_solver.
Qed.

Lemma dict_set_keys {V} (key : string) (v : V) items :
  (dict_set key v items).*1
  = if decide (key ∈ items.*1) then items.*1 else (items.*1 ++ [key])%list.
Proof.
  induction items as [|[k w] rest IH]; cbn; [reflexivity|].
  destruct (decide (k = key)) as [->|Hne].
  - rewrite decide_True by (apply elem_of_cons; now left). reflexivity.
  - cbn. rewrite IH. destruct (decide (key ∈ rest.*1)) as [Hin|Hnin].
    + rewrite decide_True by (apply elem_of_cons; now right). reflexivity.
    + rewrite decide_False; [reflexivity|].
      intros [->|H]%elem_of_cons; done.
Qed.

Lemma dict_set_NoDup {V} (key : string) (v : V) items :
  NoDup items.*1 -> NoDup (dict_set key v items).*1.
Proof.
  intros Hnd. rewrite dict_set_keys. case_decide; [assumption|].
  apply NoDup_app. repeat split; [assumption| |apply NoDup_singleton].
  intros x Hx ->%list_elem_of_singleton. contradiction.
Qed.

Lemma bindings_dict_snoc found device_info :
  bindings_dict (found ++ [device_info])
  = dict_set (device_id device_info) device_info (bindings_dict found).
Proof. unfold bindings_dict. now rewrite fold_left_app. Qed.

Lemma last_listed_snoc found device_info did :
  last_listed (found ++ [device_info]) did
  = if decide (device_id device_info = did) then Some device_info
    else last_listed found did.
Proof.
  unfold last_listed. rewrite filter_app. cbn.
  destruct (decide (device_id device_info = did)).
  - apply last_snoc.
  - now rewrite app_nil_r.
Qed.

(** The dict built from the listed devices: one entry per device id,
    holding the last device listed under that id. *)
Lemma bindings_dict_spec found :
  NoDup (bindings_dict found).*1 /\
  forall did device_info,
    (did, device_info) ∈ bindings_dict found <-> last_listed found did = Some device_info.
Proof.
  induction found as [|device_info found [IHnd IH]] using rev_ind.
  - split; [constructor|]. intros did d. cbn. split; [intros H|discriminate].
    now apply elem_of_nil in H.
  - rewrite bindings_dict_snoc. split; [now apply dict_set_NoDup|].
    intros did d. rewrite (dict_set_elem _ _ _ _ _ IHnd), last_listed_snoc, IH.
    case_decide as Hd; subst.
    + split; [intros [[_ ->]|[Hne _]]; [reflexivity|done] |intros [= ->]; now left].
    + split; [intros [[-> _]|[_ H]]; [done|exact H] |intros H; right; split; [congruence|exact H]].
Qed.

Lemma last_listed_Some found did device_info :
  last_listed found did = Some device_info ->
  device_id device_info = did /\ device_info ∈ found.
Proof.
  unfold last_listed. intros H%last_Some_elem_of.
  apply list_elem_of_filter in H as [H1 H2]. now split.
Qed.

Lemma last_listed_is_Some found did :
  is_Some (last_listed found did) <-> did ∈ device_id <$> found.
Proof.
  unfold last_listed. rewrite last_is_Some. split.
  - intros Hne. destruct (filter _ found) as [|d l] eqn:Hf; [done|].
    assert (Hd : d ∈ filter (fun device_info => device_id device_info = did) found)
      by (rewrite Hf; left).
    apply list_elem_of_filter in Hd as [<- Hd]. apply list_elem_of_fmap. now exists d.
  - intros (d & -> & Hd)%list_elem_of_fmap Hnil.
    assert (Hin : d ∈ filter (fun device_info => device_id device_info = device_id d) found)
      by now apply list_elem_of_filter.
    rewrite Hnil in Hin. now apply elem_of_nil in Hin.
Qed.

Lemma parse_device_err raw x :
  parse_device raw = Err x -> exists key, x = KeyError key.
Proof.
  unfold parse_device, and_then, raw_getitem.
  destruct (raw !! "did"); [|intros [= <-]; eauto].
  destruct (raw !! "dev_alias"); [|intros [= <-]; eauto].
  destruct (raw !! "product_name"); [discriminate|intros [= <-]; eauto].
Qed.

Lemma parse_device_ok raw device_info :
  parse_device raw = Ok device_info ->
  is_Some (raw !! "did") /\ is_Some (raw !! "dev_alias") /\
  is_Some (raw !! "product_name").
Proof.
  unfold parse_device, and_then, raw_getitem.
  destruct (raw !! "did"); [|discriminate].
  destruct (raw !! "dev_alias"); [|discriminate].
  destruct (raw !! "product_name"); [|discriminate]. eauto.
Qed.

Lemma parse_devices_malformed raws raw :
  raw ∈ raws ->
  raw !! "did" = None \/ raw !! "dev_alias" = None \/ raw !! "product_name" = None ->
  exists key, parse_devices raws = Err (KeyError key).
Proof.
  intros Hin Hbad. induction raws as [|raw0 rest IH]; [now apply elem_of_nil in Hin|].
  cbn. destruct (parse_device raw0) as [d|x] eqn:Hp.
  - apply elem_of_cons in Hin as [->|Hin].
    + exfalso. apply parse_device_ok in Hp as ([? H1] & [? H2] & [? H3]).
      destruct Hbad as [H|[H|H]]; congruence.
    + destruct (IH Hin) as [key ->]. cbn. eauto.
  - cbn. apply parse_device_err in Hp as [key ->]. eauto.
Qed.

Lemma bindings_dict_keys found did :
  did ∈ (bindings_dict found).*1 <-> did ∈ device_id <$> found.
Proof.
  destruct (bindings_dict_spec found) as [_ Hspec].
  rewrite <- last_listed_is_Some, list_elem_of_fmap. split.
  - intros ([k d] & -> & Hin). exists d. now apply Hspec.
  - intros [d Hd]. exists (did, d). split; [reflexivity|now apply Hspec].
Qed.

(** X3. A refresh that succeeds replaces the registry wholesale by a dict
    of the listed devices: one entry per listed device id, holding the
    last device listed under that id; the cache is not touched. *)
Theorem refresh_bindings_registry answer found self :
  listed answer = Ok found ->
  exists items,
    refresh_bindings answer self = (Ok tt, with_bindings (Some items) self) /\
    NoDup items.*1 /\
    (forall did, did ∈ items.*1 <-> did ∈ device_id <$> found) /\
    (forall did device_info,
       (did, device_info) ∈ items <-> last_listed found did = Some device_info).
Proof.
  intros Hl. exists (bindings_dict found).
  destruct (bindings_dict_spec found) as [Hnd Hspec].
  split; [now rewrite refresh_bindings_eq, Hl|]. split; [exact Hnd|].
  split; [|exact Hspec].
  intros did. apply bindings_dict_keys.
Qed.

Lemma refresh_bindings_registry_witness :
  exists items,
    refresh_bindings two_spas fresh_api = (Ok tt, with_bindings (Some items) fresh_api) /\
    NoDup items.*1 /\
    (forall did, did ∈ items.*1 <-> did ∈ ["abc"; "xyz"; "xyz"]) /\
    (forall did device_info,
       (did, device_info) ∈ items
       <-> last_listed
             [ {| device_id := "abc"; alias := "Spa"; product_name := "X1" |};
               {| device_id := "xyz"; alias := "Old"; product_name := "X1" |};
               {| device_id := "xyz"; alias := "New"; product_name := "X1" |} ] did
           = Some device_info).
Proof.
  apply (refresh_bindings_registry two_spas
           [ {| device_id := "abc"; alias := "Spa"; product_name := "X1" |};
             {| device_id := "xyz"; alias := "Old"; product_name := "X1" |};
             {| device_id := "xyz"; alias := "New"; product_name := "X1" |} ] fresh_api).
  reflexivity.
Defined.

(** The device listed twice is bound once, under its last listing. *)
Example refresh_bindings_two_spas :
  _bindings (refresh_bindings two_spas fresh_api).2
  = Some [("abc", {| device_id := "abc"; alias := "Spa"; product_name := "X1" |});
          ("xyz", {| device_id := "xyz"; alias := "New"; product_name := "X1" |})].
Proof. reflexivity. Qed.

(** X4. One listed element without a [did], [dev_alias] or [product_name]
    fails the whole refresh with a [KeyError] and leaves the client, its
    old registry included, as it was. *)
Theorem refresh_bindings_malformed response api_data raw self :
  ok response = true ->
  json response = Some api_data ->
  raw ∈ devices api_data ->
  raw !! "did" = None \/ raw !! "dev_alias" = None \/ raw !! "product_name" = None ->
  exists key, refresh_bindings (Ok response) self = (Err (KeyError key), self).
Proof.
  intros Hok Hj Hin Hbad.
  destruct (parse_devices_malformed _ _ Hin Hbad) as [key Hk]. exists key.
  rewrite refresh_bindings_eq. unfold listed, and_then, response_raise_for_status,
    response_json. now rewrite Hok, Hj, Hk.
Qed.

Lemma refresh_bindings_malformed_witness :
  exists key,
    refresh_bindings broken_listing (spa_api (spa_status 50))
    = (Err (KeyError key), spa_api (spa_status 50)).
Proof.
  apply (refresh_bindings_malformed
           (http_ok {| devices := [raw_spa "abc" "Spa"; <["did" := "xyz"]> ∅] |})
           {| devices := [raw_spa "abc" "Spa"; <["did" := "xyz"]> ∅] |}
           (<["did" := "xyz"]> ∅)).
  - reflexivity.
  - reflexivity.
  - apply elem_of_cons. right. apply elem_of_cons. now left.
  - right. left. reflexivity.
Defined.

(** ** A polling cycle *)

Lemma fetch_loop_device e items : forall results self results' self' did report,
  fetch_loop e items results self = (Ok results', self') ->
  results' !! did = Some report ->
  results !! did = Some report \/ (did, device report) ∈ items.
Proof.
  induction items as [|[d0 dev0] rest IH]; intros results self results' self' did report.
  - intros [= <- <-] H. now left.
  - cbn [fetch_loop]. intros (results1 & self1 & H1 & H2)%bind_ok_inv Hr.
    apply fetch_device_ok in H1 as (ld & st & _ & _ & -> & _).
    destruct (IH _ _ _ _ _ _ H2 Hr) as [H|H].
    + destruct (decide (d0 = did)) as [->|Hne].
      * rewrite lookup_insert_eq in H. injection H as <-. right.
        apply elem_of_cons. now left.
      * rewrite lookup_insert_ne in H by done. now left.
    + right. apply elem_of_cons. now right.
Qed.

Lemma _async_update_data_eq answer e api :
  _async_update_data answer e api
  = match listed answer with
    | Err x => (UpdateFailed x, api)
    | Ok found =>
        match fetch_data e (with_bindings (Some (bindings_dict found)) api) with
        | (Ok reports, api') => (Updated reports, api')
        | (Err x, api') => (UpdateFailed x, api')
        end
    end.
Proof.
  unfold _async_update_data, bind. rewrite refresh_bindings_eq.
  now destruct (listed answer).
Qed.

(** X5. A polling cycle that succeeds reports exactly the devices the
    account lists: each listed id has one report, no other id has one, the
    report names the device as last listed and carries the status the
    cache then holds. *)
Theorem _async_update_data_reports answer e api reports api' :
  _async_update_data answer e api = (Updated reports, api') ->
  exists found,
    listed answer = Ok found /\
    (forall did, is_Some (reports !! did) <-> did ∈ device_id <$> found) /\
    (forall did report,
       reports !! did = Some report ->
       last_listed found did = Some (device report) /\
       _local_state_cache api' !! did = Some (status report)).
Proof.
  rewrite _async_update_data_eq.
  destruct (listed answer) as [found|x] eqn:Hl; [|discriminate].
  destruct (bindings_dict_spec found) as [Hnd Hspec].
  pose proof (bindings_dict_keys found) as Hkeys.
  set (api0 := with_bindings _ api).
  destruct (fetch_data e api0) as [[r|x] api1] eqn:Hf; [|discriminate].
  intros [= -> ->]. exists found. split; [reflexivity|].
  assert (Hb : _bindings api0 = Some (bindings_dict found)) by reflexivity.
  split.
  - intros did. rewrite <- Hkeys. split.
    + intros [report Hr].
      destruct (decide (did ∈ (bindings_dict found).*1)) as [Hin|Hnin]; [exact Hin|].
      rewrite fetch_data_eq, Hb in Hf. cbn [default] in Hf.
      rewrite (fetch_loop_results_not_bound _ _ _ _ _ _ _ Hnin Hf) in Hr.
      now rewrite lookup_empty in Hr.
    + intros Hin.
      destruct (fetch_data_bound _ _ _ _ _ _ Hb Hin Hf) as (_ & st & _ & _ & Hr & _).
      destruct (reports !! did); [eauto|discriminate].
  - intros did report Hr.
    pose proof Hf as Hloop. rewrite fetch_data_eq, Hb in Hloop. cbn [default] in Hloop.
    destruct (fetch_loop_device _ _ _ _ _ _ _ _ Hloop Hr) as [H|H];
      [now rewrite lookup_empty in H|].
    split; [now apply Hspec|].
    assert (Hin : did ∈ (bindings_dict found).*1).
    { apply list_elem_of_fmap. now exists (did, device report). }
    destruct (fetch_data_bound _ _ _ _ _ _ Hb Hin Hf) as (_ & st & _ & Hs & Hrep & _).
    rewrite Hr in Hrep. cbn in Hrep. congruence.
Qed.

Lemma _async_update_data_reports_witness :
  exists found,
    listed two_spas = Ok found /\
    (forall did,
       is_Some ((<["abc" := {| device := spa; status := spa_status 100 |}]>
                 (<["xyz" := {| device := {| device_id := "xyz"; alias := "New";
                                             product_name := "X1" |};
                                 status := spa_status 100 |}]> ∅)
                 : gmap string CleverSpaDeviceReport) !! did)
       <-> did ∈ device_id <$> found).
Proof.
  destruct (_async_update_data_reports two_spas (spa_env 100 200) new_api
              (<["abc" := {| device := spa; status := spa_status 100 |}]>
                 (<["xyz" := {| device := {| device_id := "xyz"; alias := "New";
                                             product_name := "X1" |};
                                 status := spa_status 100 |}]> ∅))
              (_async_update_data two_spas (spa_env 100 200) new_api).2)
    as (found & Hl & Hdom & _).
  - vm_compute. reflexivity.
  - exists found. split; [exact Hl|exact Hdom].
Defined.

(** X6. A device the account no longer lists is not reported by the
    cycle, and its cache entry stays as it was. *)
Theorem _async_update_data_unlisted answer e api found did :
  listed answer = Ok found ->
  did ∉ device_id <$> found ->
  _local_state_cache (_async_update_data answer e api).2 !! did
  = _local_state_cache api !! did /\
  (forall reports,
     (_async_update_data answer e api).1 = Updated reports -> reports !! did = None).
Proof.
  intros Hl Hnin.
  rewrite <- bindings_dict_keys in Hnin.
  rewrite _async_update_data_eq, Hl.
  set (api0 := with_bindings _ api).
  pose proof (fetch_data_not_bound e api0 did Hnin) as Hc.
  destruct (fetch_data e api0) as [[r|x] api1] eqn:Hf; cbn [fst snd] in *.
  - split; [exact Hc|]. intros reports [= <-].
    rewrite fetch_data_eq in Hf. cbn [default] in Hf.
    rewrite (fetch_loop_results_not_bound _ _ _ _ _ _ _ Hnin Hf). apply lookup_empty.
  - split; [exact Hc|]. discriminate.
Qed.

Lemma _async_update_data_unlisted_witness :
  _local_state_cache (_async_update_data one_spa (spa_env 100 200) old_api).2 !! "old"
  = _local_state_cache old_api !! "old".
Proof.
  apply (_async_update_data_unlisted one_spa (spa_env 100 200) old_api
           [ {| device_id := "abc"; alias := "Spa"; product_name := "X1" |} ] "old").
  - reflexivity.
  - intros H. apply list_elem_of_singleton in H. discriminate.
Defined.

(** ** Invariants of a client's history *)

Lemma dispatch_same_bindings e e' device_id c :
  steps same_bindings (dispatch e e' device_id c).
Proof.
  apply (steps_dispatch same_bindings (fun _ => True)); unfold same_bindings; auto.
Qed.

Lemma perform_registry_ok call self :
  registry_ok self -> registry_ok (perform call self).2.
Proof.
  intros Hok. destruct call as [answer|e|e e' device_id c]; cbn [perform].
  - rewrite refresh_bindings_eq. destruct (listed answer) as [found|x]; [|exact Hok].
    intros items [= <-]. destruct (bindings_dict_spec found) as [Hnd Hspec].
    split; [exact Hnd|]. intros did d Hin%Hspec. now apply last_listed_Some in Hin.
  - rewrite bind_ret_tt_state. intros items Hb. apply Hok.
    now rewrite fetch_data_bindings in Hb.
  - intros items Hb. apply Hok.
    now rewrite (dispatch_same_bindings e e' device_id c self) in Hb.
Qed.

(** X7. Through any history of a client, from its construction on, the
    registry is a dict of devices by their own ids: no id is bound twice,
    and every id is bound to a device carrying that id. *)
Theorem run_registry calls items :
  _bindings (run calls new_api) = Some items ->
  NoDup items.*1 /\
  forall did device_info, (did, device_info) ∈ items -> device_id device_info = did.
Proof.
  assert (H : forall self, registry_ok self -> registry_ok (run calls self)).
  { induction calls as [|call rest IH]; intros self Hok; [exact Hok|].
    cbn [run]. apply IH. now apply perform_registry_ok. }
  apply H. intros items' Hb. discriminate.
Qed.

Lemma run_registry_witness :
  NoDup [("abc", {| device_id := "abc"; alias := "Spa"; product_name := "X1" |});
         ("xyz", {| device_id := "xyz"; alias := "New"; product_name := "X1" |})].*1 /\
  forall did device_info,
    (did, device_info)
    ∈ [("abc", {| device_id := "abc"; alias := "Spa"; product_name := "X1" |});
       ("xyz", {| device_id := "xyz"; alias := "New"; product_name := "X1" |})] ->
    device_id device_info = did.
Proof.
  apply (run_registry [Refresh two_spas; Fetch (spa_env 100 200);
                       Control (spa_env 100 200) (spa_env 100 230) "abc" (Bubbles true)]
           [("abc", {| device_id := "abc"; alias := "Spa"; product_name := "X1" |});
            ("xyz", {| device_id := "xyz"; alias := "New"; product_name := "X1" |})]).
  reflexivity.
Defined.

Lemma parse_status_from_server latest_data st :
  parse_status latest_data = Ok st -> from_server st.
Proof.
  unfold parse_status, and_then.
  repeat (match goal with |- context [getitem ?d ?k] => destruct (getitem d k) end;
          [|discriminate]).
  intros [= <-]. now split.
Qed.

Lemma dispatch_keeps_from_server e e' device_id c :
  steps (keeps from_server) (dispatch e e' device_id c).
Proof.
  apply (steps_dispatch (keeps from_server)
           (fun assign => forall st, from_server st -> from_server (assign st)));
    unfold keeps, cache_all; auto.
  - intros self did st assign Hc Ha Hall d st' Hd. cbn in Hd.
    destruct (decide (did = d)) as [->|Hne].
    + rewrite lookup_insert_eq in Hd. injection Hd as <-. eauto.
    + rewrite lookup_insert_ne in Hd by done. eauto.
  - intros self did latest_data st Hp _ Hall d st' Hd. cbn in Hd.
    destruct (decide (did = d)) as [->|Hne].
    + rewrite lookup_insert_eq in Hd. injection Hd as <-.
      now apply parse_status_from_server in Hp.
    + rewrite lookup_insert_ne in Hd by done. eauto.
Qed.

Lemma fetch_data_keeps_from_server e : steps (keeps from_server) (fetch_data e).
Proof.
  apply (steps_fetch_data (keeps from_server)); unfold keeps, cache_all; auto.
  intros self did latest_data st Hp _ Hall d st' Hd. cbn in Hd.
  destruct (decide (did = d)) as [->|Hne].
  - rewrite lookup_insert_eq in Hd. injection Hd as <-.
    now apply parse_status_from_server in Hp.
  - rewrite lookup_insert_ne in Hd by done. eauto.
Qed.

Lemma run_from_server calls : forall self,
  cache_all from_server self -> cache_all from_server (run calls self).
Proof.
  induction calls as [|call rest IH]; intros self Hall; [exact Hall|].
  cbn [run]. apply IH.
  destruct call as [answer|e|e e' device_id c]; cbn [perform].
  - intros d st. rewrite refresh_bindings_cache. apply Hall.
  - rewrite bind_ret_tt_state. now apply fetch_data_keeps_from_server.
  - now apply dispatch_keeps_from_server.
Qed.

(** A report names a bound device and carries the entry of the cache. *)
Lemma fetch_data_report e self reports self' did report :
  fetch_data e self = (Ok reports, self') ->
  reports !! did = Some report ->
  _local_state_cache self' !! did = Some (status report).
Proof.
  intros Hf Hr.
  destruct (decide (did ∈ (default [] (_bindings self)).*1)) as [Hin|Hnin].
  - destruct (_bindings self) as [items|] eqn:Hb; [|now apply elem_of_nil in Hin].
    destruct (fetch_data_bound _ _ _ _ _ _ Hb Hin Hf) as (_ & st & _ & Hs & Hrep & _).
    rewrite Hr in Hrep. cbn in Hrep. congruence.
  - rewrite fetch_data_eq in Hf.
    rewrite (fetch_loop_results_not_bound _ _ _ _ _ _ _ Hnin Hf) in Hr.
    now rewrite lookup_empty in Hr.
Qed.

(** X8. Through any history of a client, every cached status is in
    Celsius with an empty error list; so whatever [fetch_data] reports,
    the thermostat's unit is Celsius and never Fahrenheit. *)
Theorem run_celsius calls e reports did :
  (fetch_data e (run calls new_api)).1 = Ok reports ->
  temperature_unit reports did = TEMP_CELSIUS /\
  (forall st, device_status reports did = Some st ->
              temp_set_unit st = CELSIUS /\ errors st = []).
Proof.
  intros Hf.
  assert (Hall : cache_all from_server (fetch_data e (run calls new_api)).2).
  { apply fetch_data_keeps_from_server, run_from_server.
    intros d st Hd. unfold new_api in Hd. cbn in Hd. now rewrite lookup_empty in Hd. }
  destruct (fetch_data e (run calls new_api)) as [r self'] eqn:Hfd.
  cbn in Hf, Hall. subst r.
  assert (Hst : forall st, device_status reports did = Some st -> from_server st).
  { unfold device_status. intros st Hs.
    destruct (reports !! did) as [report|] eqn:Hr; [|discriminate].
    injection Hs as <-. apply (Hall did). now apply (fetch_data_report _ _ _ _ _ _ Hfd). }
  split; [|exact Hst].
  unfold temperature_unit. destruct (device_status reports did) as [st|]; [|reflexivity].
  destruct (Hst st eq_refl) as [-> _]. reflexivity.
Qed.

Lemma run_celsius_witness :
  temperature_unit
    (<["abc" := {| device := spa;
                   status := set_temp_set (VInt 35) (set_timestamp 200 (spa_status 100)) |}]> ∅)
    "abc"
  = TEMP_CELSIUS.
Proof.
  apply (run_celsius
           [Refresh one_spa; Fetch (spa_env 100 150);
            Control (spa_env 100 200) (spa_env 100 230) "abc" (TargetTemp 35)]
           (spa_env 100 300)).
  reflexivity.
Defined.

(** ** Commands that do not go through *)

Lemma posted_err e target name value x self :
  posted e target name value = Err x ->
  _do_post e target name value self
  = (Err x, with_event (EvPost target name value) self).
Proof. intros H. now rewrite _do_post_eq, H. Qed.

Lemma posted_ok e target name value body self :
  posted e target name value = Ok body ->
  _do_post e target name value self
  = (Ok body, with_event (EvPost target name value) self).
Proof. intros H. now rewrite _do_post_eq, H. Qed.

(** X9. A command whose control request fails (transport error, status
    of 400 or more, a body that is not JSON) raises that error at once:
    the cache is not written, nothing is fetched, and the request log
    gains the control request alone. *)
Theorem dispatch_rejected e e' device_id c x self :
  posted e (KStr device_id) (control_attr c).1 (control_attr c).2 = Err x ->
  dispatch e e' device_id c self
  = (Err x, with_event (EvPost (KStr device_id) (control_attr c).1 (control_attr c).2) self).
Proof.
  intros Hp.
  destruct c; cbn [dispatch control_attr fst snd] in *;
    unfold set_heat, set_filter, set_locked, set_bubbles, set_target_temp;
    now rewrite (bind_err _ _ _ _ _ (posted_err _ _ _ _ _ self Hp)).
Qed.

Lemma dispatch_rejected_witness :
  dispatch (refusing_env 100 200) (refusing_env 100 230) "abc" (Bubbles true)
    (spa_api (spa_status 150))
  = (Err (ClientResponseError 403 "Forbidden"),
     with_event (EvPost (KStr "abc") "Bubble" 1) (spa_api (spa_status 150))).
Proof.
  apply (dispatch_rejected (refusing_env 100 200) (refusing_env 100 230) "abc"
           (Bubbles true)).
  reflexivity.
Defined.

(** X10. A command for a device without a cache entry has its control
    request accepted by the server and then raises [KeyError]: the remote
    device is commanded, the cache stays as it was and nothing is
    fetched. *)
Theorem dispatch_without_entry e e' device_id c body self :
  _local_state_cache self !! device_id = None ->
  posted e (KStr device_id) (control_attr c).1 (control_attr c).2 = Ok body ->
  dispatch e e' device_id c self
  = (Err (KeyError device_id),
     with_event (EvPost (KStr device_id) (control_attr c).1 (control_attr c).2) self).
Proof.
  intros Hc Hp.
  destruct c; cbn [dispatch control_attr fst snd] in *;
    unfold set_heat, set_filter, set_locked, set_bubbles, set_target_temp;
    rewrite (bind_ok _ _ _ _ _ (posted_ok _ _ _ _ _ self Hp));
    erewrite bind_err; [reflexivity| | reflexivity| | reflexivity| | reflexivity| | reflexivity| ];
    now apply cache_setattr_missing.
Qed.

Lemma dispatch_without_entry_witness :
  dispatch (spa_env 100 200) (spa_env 100 230) "abc" (Heat true) fresh_api
  = (Err (KeyError "abc"), with_event (EvPost (KStr "abc") "Heater" 1) fresh_api).
Proof.
  apply (dispatch_without_entry (spa_env 100 200) (spa_env 100 230) "abc" (Heat true) VNone).
  - reflexivity.
  - reflexivity.
Defined.

(** ** Commands that go through *)

Lemma set_heat_on_eq e e' device_id self cached body :
  _local_state_cache self !! device_id = Some cached ->
  posted e (KStr device_id) "Heater" 1 = Ok body ->
  set_heat e e' device_id true self
  = bind (fetch_data e) (fun _ => ret tt)
      (with_cache
         (<[device_id := set_filter_power true
                           (set_heat_power true (set_timestamp (int (time e)) cached))]>
            (_local_state_cache self))
         (with_event (EvPost (KStr device_id) "Heater" 1) self)).
Proof.
  intros Hc Hp. unfold set_heat.
  erewrite bind_ok by (rewrite _do_post_eq, Hp; reflexivity).
  erewrite bind_ok by (apply cache_setattr_eq; exact Hc).
  erewrite bind_ok by (apply cache_setattr_eq; apply lookup_insert_eq).
  erewrite bind_ok by (apply cache_setattr_eq; apply lookup_insert_eq).
  cbn. now rewrite !insert_insert_eq.
Qed.

Lemma set_locked_eq e device_id (locked : bool) self cached body :
  _local_state_cache self !! device_id = Some cached ->
  posted e (KStr device_id) "locked" (if locked then 1 else 0) = Ok body ->
  set_locked e device_id locked self
  = bind (fetch_data e) (fun _ => ret tt)
      (with_cache
         (<[device_id := set_instance_attr "locked" (VBool locked)
                           (set_timestamp (int (time e)) cached)]>
            (_local_state_cache self))
         (with_event (EvPost (KStr device_id) "locked" (if locked then 1 else 0)) self)).
Proof.
  intros Hc Hp. unfold set_locked.
  erewrite bind_ok by (rewrite _do_post_eq, Hp; reflexivity).
  erewrite bind_ok by (apply cache_setattr_eq; exact Hc).
  erewrite bind_ok by (apply cache_setattr_eq; apply lookup_insert_eq).
  cbn. now rewrite insert_insert_eq.
Qed.

Lemma set_filter_on_eq e device_id self cached body :
  _local_state_cache self !! device_id = Some cached ->
  posted e (KStr device_id) "Filter" 1 = Ok body ->
  set_filter e (KStr device_id) true self
  = (Ok tt,
     with_cache
       (<[device_id := set_filter_power true (set_timestamp (int (time e)) cached)]>
          (_local_state_cache self))
       (with_event (EvPost (KStr device_id) "Filter" 1) self)).
Proof.
  intros Hc Hp. unfold set_filter. cbn [negb].
  erewrite bind_ok by (rewrite _do_post_eq, Hp; reflexivity).
  erewrite bind_ok by (apply cache_setattr_eq; exact Hc).
  erewrite bind_ok by (apply cache_setattr_eq; apply lookup_insert_eq).
  cbn. now rewrite insert_insert_eq.
Qed.

Lemma insert_stale_entry e self d st :
  (forall latest_data, latest e d = Ok latest_data ->
                       updated_at latest_data < timestamp st) ->
  _local_state_cache
    (bind (fetch_data e) (fun _ => ret tt)
       (with_cache (<[d := st]> (_local_state_cache self)) self)).2 !! d
  = Some st.
Proof.
  intros Hstale. rewrite bind_ret_tt_state.
  apply fetch_data_stale; [apply lookup_insert_eq|exact Hstale].
Qed.

(** X11. Turning the heater on also turns the filter on: while the server
    still answers for the device with an older timestamp, the cache entry
    after [set_heat(d, True)] has [heat_power] and [filter_power] both
    [True] and the timestamp of the command, the other fields as before.
    Nothing of the heater-off path runs: what the world would answer
    after a cooldown plays no part. *)
Theorem set_heat_on_filter e e' self d cached body answer :
  _local_state_cache self !! d = Some cached ->
  posted e (KStr d) "Heater" 1 = Ok body ->
  latest e d = Ok answer ->
  updated_at answer < int (time e) ->
  (exists st,
     _local_state_cache (set_heat e e' d true self).2 !! d = Some st /\
     heat_power st = true /\ filter_power st = true /\
     timestamp st = int (time e) /\
     bubble_power st = bubble_power cached /\
     temp_now st = temp_now cached /\ temp_set st = temp_set cached /\
     instance_attrs st = instance_attrs cached) /\
  (forall e'', set_heat e e'' d true self = set_heat e e' d true self).
Proof.
  intros Hc Hp Hl Hlt. split.
  - exists (set_filter_power true (set_heat_power true (set_timestamp (int (time e)) cached))).
    split; [|repeat split].
    rewrite (set_heat_on_eq _ _ _ _ _ _ Hc Hp).
    apply (insert_stale_entry e (with_event _ self)).
    intros ld Hld. assert (ld = answer) as -> by congruence. exact Hlt.
  - intros e''. now rewrite !(set_heat_on_eq _ _ _ _ _ _ Hc Hp).
Qed.

Lemma set_heat_on_filter_witness :
  exists st,
    _local_state_cache
      (set_heat (spa_env 100 200) (spa_env 100 230) "abc" true (spa_api idle_status)).2
      !! "abc" = Some st /\
    heat_power st = true /\ filter_power st = true.
Proof.
  destruct (set_heat_on_filter (spa_env 100 200) (spa_env 100 230) (spa_api idle_status)
              "abc" idle_status VNone (spa_data 100))
    as [(st & Hs & Hh & Hf & _) _].
  - reflexivity.
  - reflexivity.
  - reflexivity.
  - change (100 < 200). lia.
  - exists st. split; [exact Hs|]. split; [exact Hh|exact Hf].
Defined.

(** X12. Switching the filter on writes the timestamp and [filter_power]
    only: heater, bubbles and every other field keep their values, no
    stray attribute is bound, the command returns normally and nothing is
    fetched. *)
Theorem set_filter_on_frame e self d cached body :
  _local_state_cache self !! d = Some cached ->
  posted e (KStr d) "Filter" 1 = Ok body ->
  exists self' st,
    set_filter e (KStr d) true self = (Ok tt, self') /\
    requests self' = (requests self ++ [EvPost (KStr d) "Filter" 1])%list /\
    _bindings self' = _bindings self /\
    (forall did, did <> d ->
       _local_state_cache self' !! did = _local_state_cache self !! did) /\
    _local_state_cache self' !! d = Some st /\
    timestamp st = int (time e) /\
    filter_power st = true /\
    heat_power st = heat_power cached /\
    bubble_power st = bubble_power cached /\
    temp_now st = temp_now cached /\
    temp_set st = temp_set cached /\
    filter_age st = filter_age cached /\
    instance_attrs st = instance_attrs cached.
Proof.
  intros Hc Hp. rewrite (set_filter_on_eq e d self cached body Hc Hp).
  eexists _, _. split; [reflexivity|]. cbn. rewrite lookup_insert_eq.
  split; [reflexivity|]. split; [reflexivity|].
  split; [intros did Hne; now rewrite lookup_insert_ne|].
  repeat split; reflexivity.
Qed.

Lemma set_filter_on_frame_witness :
  exists self' st,
    set_filter (spa_env 100 200) (KStr "abc") true (spa_api idle_status) = (Ok tt, self') /\
    _local_state_cache self' !! "abc" = Some st /\
    filter_power st = true /\ heat_power st = false.
Proof.
  destruct (set_filter_on_frame (spa_env 100 200) (spa_api idle_status) "abc"
              idle_status VNone)
    as (self' & st & Heq & _ & _ & _ & Hs & _ & Hf & Hh & _).
  - reflexivity.
  - reflexivity.
  - exists self', st. split; [exact Heq|]. split; [exact Hs|]. split; [exact Hf|exact Hh].
Defined.

(** X13. [set_locked] keeps the lock state in an attribute outside the
    declared fields: while the server still answers with an older
    timestamp, the entry after the command carries [locked] and the
    timestamp of the command, and every declared field but the timestamp
    is as before. *)
Theorem set_locked_attribute e self d cached (locked : bool) body answer :
  _local_state_cache self !! d = Some cached ->
  posted e (KStr d) "locked" (if locked then 1 else 0) = Ok body ->
  latest e d = Ok answer ->
  updated_at answer < int (time e) ->
  exists st,
    _local_state_cache (set_locked e d locked self).2 !! d = Some st /\
    instance_attrs st !! "locked" = Some (VBool locked) /\
    timestamp st = int (time e) /\
    heat_power st = heat_power cached /\
    filter_power st = filter_power cached /\
    bubble_power st = bubble_power cached /\
    temp_now st = temp_now cached /\
    temp_set st = temp_set cached /\
    temp_set_unit st = temp_set_unit cached /\
    filter_age st = filter_age cached /\
    errors st = errors cached.
Proof.
  intros Hc Hp Hl Hlt.
  exists (set_instance_attr "locked" (VBool locked) (set_timestamp (int (time e)) cached)).
  split; [|split; [apply lookup_insert_eq|repeat split]].
  rewrite (set_locked_eq _ _ _ _ _ _ Hc Hp).
  apply (insert_stale_entry e (with_event _ self)).
  intros ld Hld. assert (ld = answer) as -> by congruence. exact Hlt.
Qed.

Lemma set_locked_attribute_witness :
  exists st,
    _local_state_cache (set_locked (spa_env 100 200) "abc" true (spa_api idle_status)).2
      !! "abc" = Some st /\
    instance_attrs st !! "locked" = Some (VBool true).
Proof.
  destruct (set_locked_attribute (spa_env 100 200) (spa_api idle_status) "abc"
              idle_status true VNone (spa_data 100))
    as (st & Hs & Hlock & _).
  - reflexivity.
  - reflexivity.
  - reflexivity.
  - change (100 < 200). lia.
  - exists st. split; [exact Hs|exact Hlock].
Defined.

Lemma fetch_after_write e self d written items latest_data self' :
  bind (fetch_data e) (fun _ => ret tt)
    (with_cache (<[d := written]> (_local_state_cache self)) self) = (Ok tt, self') ->
  _bindings self = Some items ->
  d ∈ items.*1 ->
  latest e d = Ok latest_data ->
  timestamp written <= updated_at latest_data ->
  exists st, parse_status latest_data = Ok st /\
             _local_state_cache self' !! d = Some st.
Proof.
  intros (results & Hf)%bind_ret_tt_ok Hb Hd Hl Hle.
  set (self0 := with_cache _ self) in Hf.
  assert (Hb0 : _bindings self0 = Some items) by exact Hb.
  destruct (fetch_data_bound _ _ _ _ _ _ Hb0 Hd Hf) as (ld & st & Hl' & Hs & _ & Ha & _).
  assert (ld = latest_data) as -> by congruence.
  exists st. split; [|exact Hs]. apply Ha.
  rewrite local_update_timestamp_eq. unfold self0. cbn.
  now rewrite lookup_insert_eq.
Qed.

(** X14. The optimistic write of a command does not outlive an answer
    stamped in the second of the command or later: when a command that
    fetches returns, and its fetch got for the device an answer with a
    timestamp not older than the command, the entry is that answer as
    parsed, with no attribute left from before. *)
Theorem dispatch_fresh_answer e e' self self' d c cached body items latest_data :
  _local_state_cache self !! d = Some cached ->
  posted e (KStr d) (control_attr c).1 (control_attr c).2 = Ok body ->
  _bindings self = Some items ->
  d ∈ items.*1 ->
  latest e d = Ok latest_data ->
  int (time e) <= updated_at latest_data ->
  (forall filtering, c <> Filter filtering) ->
  dispatch e e' d c self = (Ok tt, self') ->
  exists st,
    parse_status latest_data = Ok st /\
    _local_state_cache self' !! d = Some st /\
    instance_attrs st = ∅.
Proof.
  intros Hc Hp Hb Hd Hl Hle Hnf Hok.
  assert (Hgoal : exists st, parse_status latest_data = Ok st /\
                             _local_state_cache self' !! d = Some st).
  { destruct c as [[]|f|l|b|t]; cbn [dispatch control_attr fst snd] in *.
    - rewrite (set_heat_on_eq _ _ _ _ _ _ Hc Hp) in Hok.
      exact (fetch_after_write e (with_event _ self) d _ items latest_data self'
               Hok Hb Hd Hl Hle).
    - destruct (set_heat_off_raises e e' d self) as [x Hx].
      rewrite Hok in Hx. discriminate.
    - now destruct (Hnf f).
    - rewrite (set_locked_eq _ _ _ _ _ _ Hc Hp) in Hok.
      exact (fetch_after_write e (with_event _ self) d _ items latest_data self'
               Hok Hb Hd Hl Hle).
    - rewrite (set_bubbles_eq _ _ _ _ _ _ Hc Hp) in Hok.
      exact (fetch_after_write e (with_event _ self) d _ items latest_data self'
               Hok Hb Hd Hl Hle).
    - rewrite (set_target_temp_eq _ _ _ _ _ _ Hc Hp) in Hok.
      exact (fetch_after_write e (with_event _ self) d _ items latest_data self'
               Hok Hb Hd Hl Hle). }
  destruct Hgoal as (st & Hparse & Hs). exists st. split; [exact Hparse|].
  split; [exact Hs|].
  unfold parse_status, and_then in Hparse.
  repeat (match type of Hparse with
          | context [getitem ?m ?k] => destruct (getitem m k); [|discriminate]
          end).
  now injection Hparse as <-.
Qed.

Lemma dispatch_fresh_answer_witness :
  exists st,
    parse_status (cold_data 200) = Ok st /\
    _local_state_cache
      (dispatch (cold_env 200 200) (cold_env 200 230) "abc" (TargetTemp 35)
         (spa_api (cold_status 100))).2 !! "abc" = Some st /\
    instance_attrs st = ∅.
Proof.
  apply (dispatch_fresh_answer (cold_env 200 200) (cold_env 200 230)
           (spa_api (cold_status 100)) _ "abc" (TargetTemp 35) (cold_status 100) VNone
           [("abc", spa)] (cold_data 200)).
  - reflexivity.
  - reflexivity.
  - reflexivity.
  - apply elem_of_cons. now left.
  - reflexivity.
  - change (200 <= 200). lia.
  - discriminate.
  - reflexivity.
Defined.

(** ** A run that raises *)

Lemma fetch_device_requests e did device_info results self :
  requests (fetch_device e did device_info results self).2
  = (requests self ++ [EvGet did])%list.
Proof.
  rewrite fetch_device_eq. cbn zeta.
  repeat (match goal with |- context [match ?x with _ => _ end] => destruct x end);
    reflexivity.
Qed.

Lemma fetch_device_cause e did device_info results self x self1 :
  fetch_device e did device_info results self = (Err x, self1) ->
  latest e did = Err x \/
  exists latest_data,
    latest e did = Ok latest_data /\
    (parse_status latest_data = Err x \/
     (x = KeyError did /\ _local_state_cache self !! did = None)).
Proof.
  rewrite fetch_device_eq. cbn zeta.
  destruct (latest e did) as [ld|y]; [|intros [= -> _]; now left].
  intros H. right. exists ld. split; [reflexivity|].
  destruct (_ <=? _).
  - destruct (parse_status ld); [discriminate|]. injection H as -> _. now left.
  - destruct (_local_state_cache self !! did); [discriminate|].
    injection H as <- _. now right.
Qed.

Lemma fetch_loop_raises e items : forall results self x self',
  fetch_loop e items results self = (Err x, self') ->
  exists reached did device_info rest,
    items = (reached ++ (did, device_info) :: rest)%list /\
    requests self' = (requests self ++ (EvGet <$> reached.*1) ++ [EvGet did])%list /\
    (forall d, d ∉ reached.*1 ->
       _local_state_cache self' !! d = _local_state_cache self !! d) /\
    (latest e did = Err x \/
     exists latest_data,
       latest e did = Ok latest_data /\
       (parse_status latest_data = Err x \/ x = KeyError did)).
Proof.
  induction items as [|[d0 dev0] rest IH]; intros results self x self'; [discriminate|].
  cbn [fetch_loop]. unfold bind.
  pose proof (fetch_device_requests e d0 dev0 results self) as Hreq.
  destruct (fetch_device e d0 dev0 results self) as [[results1|y] self1] eqn:H1;
    cbn [snd] in Hreq.
  - intros H2. destruct (IH _ _ _ _ H2) as (reached & did & dev & rest' & -> & Hr & Hc & Hx).
    exists ((d0, dev0) :: reached), did, dev, rest'. split; [reflexivity|].
    split; [rewrite Hr, Hreq; cbn; now rewrite <- app_assoc|]. split; [|exact Hx].
    intros d [Hne Hd]%not_elem_of_cons. rewrite (Hc d Hd).
    pose proof (fetch_device_cache e d0 dev0 results self d) as Hfc.
    rewrite H1, decide_False in Hfc by done. exact Hfc.
  - intros [= <- <-]. exists [], d0, dev0, rest. split; [reflexivity|].
    split; [exact Hreq|]. split.
    + intros d _.
      destruct (fetch_device_raises e d0 dev0 results self y results self) as (Hk & _);
        [now rewrite H1|reflexivity|].
      rewrite H1 in Hk. cbn in Hk. now rewrite Hk.
    + apply fetch_device_cause in H1 as [H|(ld & Hl & [H|[H _]])]; eauto.
Qed.

(** X15. The first device whose iteration raises ends the whole run: the
    devices bound after it are not requested, every device not reached
    before it keeps its cache entry, and the exception is that device's
    own: its request failed, its answer lacked an attribute, or it had no
    entry for a stale answer. *)
Theorem fetch_data_aborts e self x self' :
  fetch_data e self = (Err x, self') ->
  exists items reached did device_info rest,
    _bindings self = Some items /\
    items = (reached ++ (did, device_info) :: rest)%list /\
    requests self' = (requests self ++ (EvGet <$> reached.*1) ++ [EvGet did])%list /\
    (forall d, d ∉ reached.*1 ->
       _local_state_cache self' !! d = _local_state_cache self !! d) /\
    (latest e did = Err x \/
     exists latest_data,
       latest e did = Ok latest_data /\
       (parse_status latest_data = Err x \/ x = KeyError did)).
Proof.
  rewrite fetch_data_eq. intros Hf.
  destruct (fetch_loop_raises _ _ _ _ _ _ Hf) as (reached & did & dev & rest & Hi & H).
  destruct (_bindings self) as [items|]; cbn [default] in Hi.
  - exists items, reached, did, dev, rest. now split.
  - now destruct reached.
Qed.

Lemma fetch_data_aborts_witness :
  exists items reached did device_info rest,
    _bindings (refresh_bindings two_spas new_api).2 = Some items /\
    items = (reached ++ (did, device_info) :: rest)%list /\
    requests (fetch_data (failing_env 200) (refresh_bindings two_spas new_api).2).2
    = (requests (refresh_bindings two_spas new_api).2
         ++ (EvGet <$> reached.*1) ++ [EvGet did])%list.
Proof.
  destruct (fetch_data_aborts (failing_env 200) (refresh_bindings two_spas new_api).2
              (ClientResponseError 500 "Internal Server Error")
              (fetch_data (failing_env 200) (refresh_bindings two_spas new_api).2).2)
    as (items & reached & did & dev & rest & Hb & Hi & Hr & _).
  - reflexivity.
  - exists items, reached, did, dev, rest. split; [exact Hb|]. split; [exact Hi|exact Hr].
Defined.

(** The second spa is never asked for. *)
Example fetch_data_aborts_two_spas :
  fetch_data (failing_env 200) (refresh_bindings two_spas new_api).2
  = (Err (ClientResponseError 500 "Internal Server Error"),
     with_event (EvGet "abc") (refresh_bindings two_spas new_api).2).
Proof. reflexivity. Qed.

(** ** Login, when it goes through *)

(** X16. [get_user_token] returns a token only when both exchanges
    succeed: the identity provider answers below 400 with a JSON object
    holding [localId] and [idToken], the profile store, asked with these
    two, answers below 400 with a JSON object holding [uid], [token] and
    [expire_at]; and the token is that profile record. *)
Theorem get_user_token_token session username password token :
  get_user_token session username password = Ok token ->
  exists user user_json local_id id_token info info_json,
    verify_password session username password = Ok user /\
    code user < 400 /\
    json user = Some user_json /\
    py_getitem user_json "localId" = Ok local_id /\
    py_getitem user_json "idToken" = Ok id_token /\
    profile_get session local_id id_token = Ok info /\
    code info < 400 /\
    json info = Some info_json /\
    py_getitem info_json "uid" = Ok (user_id token) /\
    py_getitem info_json "token" = Ok (user_token token) /\
    py_getitem info_json "expire_at" = Ok (expiry token).
Proof.
  unfold get_user_token, and_then.
  destruct (verify_password session username password) as [user|] eqn:Hv; [|discriminate].
  rewrite raise_for_status_eq. unfold response_raise_for_status, response_json, ok.
  destruct (code user <? 400) eqn:Hu; [|discriminate].
  destruct (json user) as [user_json|] eqn:Hj; [|discriminate].
  destruct (py_getitem user_json "localId") as [local_id|] eqn:H1; [|discriminate].
  destruct (py_getitem user_json "idToken") as [id_token|] eqn:H2; [|discriminate].
  destruct (profile_get session local_id id_token) as [info|] eqn:Hg; [|discriminate].
  destruct (code info <? 400) eqn:Hi; [|discriminate].
  destruct (json info) as [info_json|] eqn:Hk; [|discriminate].
  destruct (py_getitem info_json "uid") as [uid|] eqn:H3; [|discriminate].
  destruct (py_getitem info_json "token") as [tok|] eqn:H4; [|discriminate].
  destruct (py_getitem info_json "expire_at") as [expire_at|] eqn:H5; [|discriminate].
  intros [= <-]. apply Z.ltb_lt in Hu, Hi.
  exists user, user_json, local_id, id_token, info, info_json. cbn.
  repeat split; assumption.
Qed.

Lemma get_user_token_token_witness :
  exists user user_json local_id id_token info info_json,
    verify_password accepting "user" "secret" = Ok user /\
    code user < 400 /\
    json user = Some user_json /\
    py_getitem user_json "localId" = Ok local_id /\
    py_getitem user_json "idToken" = Ok id_token /\
    profile_get accepting local_id id_token = Ok info /\
    code info < 400 /\
    json info = Some info_json /\
    py_getitem info_json "uid" = Ok (VStr "u-1") /\
    py_getitem info_json "token" = Ok (VStr "t-1") /\
    py_getitem info_json "expire_at" = Ok (VInt 1700000000).
Proof.
  apply (get_user_token_token accepting "user" "secret"
           {| user_id := VStr "u-1"; user_token := VStr "t-1";
              expiry := VInt 1700000000 |}).
  reflexivity.
Defined.

(** X17. When the identity provider has accepted the credentials and the
    profile store then answers with a status of 400 or more,
    [get_user_token] raises [ClientResponseError] with the profile store's
    status and reason phrase and returns no token. *)
Theorem get_user_token_profile_rejected
    session username password user user_json local_id id_token info :
  verify_password session username password = Ok user ->
  ok user = true ->
  json user = Some user_json ->
  py_getitem user_json "localId" = Ok local_id ->
  py_getitem user_json "idToken" = Ok id_token ->
  profile_get session local_id id_token = Ok info ->
  ok info = false ->
  get_user_token session username password
  = Err (ClientResponseError (code info) (reason info)).
Proof.
  intros Hv Hu Hj H1 H2 Hg Hi.
  unfold get_user_token, and_then. rewrite Hv, raise_for_status_eq.
  unfold response_raise_for_status, response_json.
  now rewrite Hu, Hj, H1, H2, Hg, Hi.
Qed.

Lemma get_user_token_profile_rejected_witness :
  get_user_token profile_denying "user" "secret"
  = Err (ClientResponseError 401 "Unauthorized").
Proof.
  apply (get_user_token_profile_rejected profile_denying "user" "secret"
           (http_ok identity_body) identity_body (VStr "local-1") (VStr "id-1")
           {| code := 401; reason := "Unauthorized"; json := None |});
    reflexivity.
Defined.

(** ** Entities *)

Lemma online_true now st :
  online now st = true <-> (now - inject_Z (timestamp st) < 1000)%Q.
Proof.
  unfold online, _CONNECTIVITY_TIMEOUT.
  rewrite negb_true_iff, <- not_true_iff_false, Qle_bool_iff.
  change (inject_Z 1000) with 1000%Q. split; intros H; lra.
Qed.

(** X18. An entity is available exactly when the coordinator holds a
    report for its device whose status is less than 1000 seconds old; a
    device without a report is unavailable. *)
Theorem available_iff now reports did :
  available now reports did = true <->
  exists report,
    reports !! did = Some report /\
    (now - inject_Z (timestamp (status report)) < 1000)%Q.
Proof.
  unfold available, device_status. destruct (reports !! did) as [report|].
  - rewrite online_true. split; [eauto|]. now intros (r & [= <-] & H).
  - split; [discriminate|]. now intros (r & [=] & _).
Qed.

(** X19. The thermostat shows HEATING only in HEAT mode and only below
    the target: then the heater flag of the reported status is on and,
    for integer temperatures, the current one is strictly below the
    set one. *)
Theorem hvac_action_heating reports did :
  hvac_action reports did = Ok (Some HEATING) ->
  hvac_mode reports did = Some HVAC_HEAT /\
  exists st,
    device_status reports did = Some st /\
    heat_power st = true /\
    forall a b, temp_now st = VInt a -> temp_set st = VInt b -> a < b.
Proof.
  unfold hvac_action, hvac_mode.
  destruct (device_status reports did) as [st|]; [|discriminate].
  unfold and_then. destruct (py_ge (temp_now st) (temp_set st)) as [reached|] eqn:Hge;
    [|discriminate].
  destruct (heat_power st) eqn:Hh; [|discriminate].
  destruct reached; [discriminate|]. intros _. split; [reflexivity|].
  exists st. split; [reflexivity|]. split; [exact Hh|].
  intros a b Ha Hb. rewrite Ha, Hb in Hge. cbn in Hge.
  injection Hge as Hge. now apply Z.leb_gt.
Qed.

Lemma hvac_action_heating_witness :
  hvac_mode (<["abc" := {| device := spa; status := warming |}]> ∅) "abc"
  = Some HVAC_HEAT.
Proof.
  apply (hvac_action_heating (<["abc" := {| device := spa; status := warming |}]> ∅) "abc").
  reflexivity.
Defined.

Lemma py_ge_none a b :
  a = VNone \/ b = VNone -> py_ge a b = Err (TypeError "'>=' not supported").
Proof. intros [->| ->]; [destruct b|destruct a]; reflexivity. Qed.

(** X20. When the current or the set temperature of the reported status
    is [None], the comparison in [hvac_action] raises [TypeError] and no
    action is returned. *)
Theorem hvac_action_none reports did st :
  device_status reports did = Some st ->
  temp_now st = VNone \/ temp_set st = VNone ->
  exists msg, hvac_action reports did = Err (TypeError msg).
Proof.
  intros Hs Hnone. unfold hvac_action. rewrite Hs. unfold and_then.
  rewrite (py_ge_none _ _ Hnone). eauto.
Qed.

Lemma hvac_action_none_witness :
  exists msg,
    hvac_action
      (<["abc" := {| device := spa; status := set_temp_set VNone idle_status |}]> ∅) "abc"
    = Err (TypeError msg).
Proof.
  apply (hvac_action_none _ "abc" (set_temp_set VNone idle_status)).
  - reflexivity.
  - right. reflexivity.
Defined.

(** X21. After the Bubbles switch is turned on or off while the server
    lags behind, the next polling cycle that lists the device shows the
    Filter switch in the position the Bubbles switch was turned to, and
    the Bubbles switch where it was before. *)
Theorem bubble_switch_shows_filter e e2 answer found self d cached (bubbles : bool) body
    reports api' :
  _local_state_cache self !! d = Some cached ->
  posted e (KStr d) "Bubble" (if bubbles then 1 else 0) = Ok body ->
  (forall latest_data, latest e d = Ok latest_data ->
                       updated_at latest_data < int (time e)) ->
  (forall latest_data, latest e2 d = Ok latest_data ->
                       updated_at latest_data < int (time e)) ->
  listed answer = Ok found ->
  d ∈ device_id <$> found ->
  _async_update_data answer e2
    ((if bubbles then turn_on_fn bubble_switch else turn_off_fn bubble_switch) e d self).2
  = (Updated reports, api') ->
  is_on reports d filter_switch = Some bubbles /\
  is_on reports d bubble_switch = Some (bubble_power cached).
Proof.
  intros Hc Hp Hstale Hstale2 Hl Hd.
  assert (Hfn : (if bubbles then turn_on_fn bubble_switch else turn_off_fn bubble_switch) e d
                = set_bubbles e d bubbles) by now destruct bubbles.
  rewrite Hfn. clear Hfn.
  set (written := set_filter_power bubbles (set_timestamp (int (time e)) cached)).
  assert (H1 : _local_state_cache (set_bubbles e d bubbles self).2 !! d = Some written).
  { rewrite (set_bubbles_eq _ _ _ _ _ _ Hc Hp).
    apply (insert_stale_entry e (with_event _ self)). exact Hstale. }
  rewrite _async_update_data_eq, Hl.
  set (api0 := with_bindings _ _).
  destruct (fetch_data e2 api0) as [[r|x] api1] eqn:Hf; [|discriminate].
  intros [= -> ->].
  assert (Hin : d ∈ (bindings_dict found).*1) by now apply bindings_dict_keys.
  assert (Hb : _bindings api0 = Some (bindings_dict found)) by reflexivity.
  destruct (fetch_data_bound _ _ _ _ _ _ Hb Hin Hf) as (_ & st & _ & Hs & Hrep & _).
  pose proof (fetch_data_stale e2 api0 d written H1 Hstale2) as H2.
  rewrite Hf in H2. cbn [snd] in H2. assert (st = written) as -> by congruence.
  unfold is_on, device_status. destruct (reports !! d) as [report|]; [|discriminate].
  injection Hrep as ->. split; reflexivity.
Qed.

Lemma bubble_switch_shows_filter_witness :
  is_on (<["abc" := {| device := spa;
                       status := set_filter_power false
                                   (set_timestamp 200 (spa_bubbling 150)) |}]> ∅)
    "abc" filter_switch = Some false /\
  is_on (<["abc" := {| device := spa;
                       status := set_filter_power false
                                   (set_timestamp 200 (spa_bubbling 150)) |}]> ∅)
    "abc" bubble_switch = Some (bubble_power (spa_bubbling 150)).
Proof.
  apply (bubble_switch_shows_filter (spa_env 100 200) (spa_env 100 230) one_spa
           [ {| device_id := "abc"; alias := "Spa"; product_name := "X1" |} ]
           (spa_api (spa_bubbling 150)) "abc" (spa_bubbling 150) false VNone _
           (_async_update_data one_spa (spa_env 100 230)
              (set_bubbles (spa_env 100 200) "abc" false (spa_api (spa_bubbling 150))).2).2).
  - reflexivity.
  - reflexivity.
  - intros ld [= <-]. change (100 < 200). lia.
  - intros ld [= <-]. change (100 < 200). lia.
  - reflexivity.
  - apply list_elem_of_singleton. reflexivity.
  - reflexivity.
Defined.

(** ** Migration of a stored entry *)

(** X22. Migrating a version-1 entry sets the API root to the EU endpoint
    and the version to 2 and keeps every other stored value (user name,
    password, token); the migrated entry is then refused if migrated
    again, since only version 1 is taken. *)
Theorem async_migrate_entry_v1 entry :
  version entry = 1 ->
  exists entry',
    async_migrate_entry entry = (true, entry') /\
    version entry' = 2 /\
    entry_data entry' !! CONF_API_ROOT = Some (VStr CONF_API_ROOT_EU) /\
    (forall name, name <> CONF_API_ROOT ->
       entry_data entry' !! name = entry_data entry !! name) /\
    async_migrate_entry entry' = (false, entry').
Proof.
  intros Hv. unfold async_migrate_entry. rewrite Hv. cbn.
  eexists. split; [reflexivity|]. cbn. split; [reflexivity|].
  split; [apply lookup_insert_eq|]. split; [|reflexivity].
  intros name Hne. now rewrite lookup_insert_ne.
Qed.

Lemma async_migrate_entry_v1_witness :
  exists entry',
    async_migrate_entry stored_v1 = (true, entry') /\
    version entry' = 2 /\
    entry_data entry' !! "username" = entry_data stored_v1 !! "username".
Proof.
  destruct (async_migrate_entry_v1 stored_v1) as (entry' & Heq & Hv & _ & Hkeep & _).
  - reflexivity.
  - exists entry'. split; [exact Heq|]. split; [exact Hv|]. now apply Hkeep.
Defined.

(** ** The config flow *)

(** X23. When the identity provider rejects the credentials with a status
    of 400 or more, the form comes back with the error
    [unknown_connection_error]: neither [incorrect_password] nor
    [user_does_not_exist] is shown, and no entry is created. *)
Theorem async_step_user_rejected session data response :
  verify_password session (input_username data) (input_password data) = Ok response ->
  ok response = false ->
  async_step_user session (Some data)
  = ShowForm (Some (<["base" := "unknown_connection_error"]> ∅)).
Proof.
  intros Hv Hok. unfold async_step_user, validate_input, get_user_token, and_then.
  rewrite Hv, raise_for_status_eq. unfold response_raise_for_status.
  now rewrite Hok.
Qed.

Lemma async_step_user_rejected_witness :
  async_step_user rejecting (Some typed)
  = ShowForm (Some (<["base" := "unknown_connection_error"]> ∅)).
Proof.
  apply (async_step_user_rejected rejecting typed rejected); reflexivity.
Defined.

(** X24. The flow creates an entry only after a login that returned a
    token; the entry is titled with the user name and stores the form as
    typed, so the token obtained while validating is not part of it. *)
Theorem async_step_user_entry session user_input entry_title data :
  async_step_user session user_input = CreateEntry entry_title data ->
  user_input = Some data /\
  entry_title = input_username data /\
  exists token,
    get_user_token session (input_username data) (input_password data) = Ok token.
Proof.
  unfold async_step_user, validate_input, and_then.
  destruct user_input as [typed_in|]; [|discriminate].
  destruct (get_user_token session (input_username typed_in) (input_password typed_in))
    as [token|x] eqn:Ht.
  - intros [= <- <-]. cbn. eauto.
  - destruct x; discriminate.
Qed.

Lemma async_step_user_entry_witness :
  Some typed = Some typed /\
  "user" = input_username typed /\
  exists token,
    get_user_token accepting (input_username typed) (input_password typed) = Ok token.
Proof.
  apply (async_step_user_entry accepting (Some typed) "user" typed).
  reflexivity.
Defined.
